(** * Artworks table: cross-page selection over a paginated catalog API

    A shallow embedding of the two source modules of the viewer:
    the fetch adapter ([fetchArtworksPage]) and the table component
    ([ArtworksTable]) with its selection map, its effects and its side
    panel.

    Conventions of the embedding.
    - A JavaScript [number] that the program uses as an identifier, a page
      number or a count is an integer of [Z]; the embedding is exact on the
      integers that [number] represents exactly and prints in decimal
      digits.
    - A JavaScript string is a [string]; its characters stand for code
      units.
    - A value of type [any] that came out of a JSON document is a [json]
      tree; [undefined] is the [None] of an [option].
    - The selection map, an object used as a dictionary from identifiers to
      records, is a [gmap Z Artwork]; its keys are enumerated in ascending
      order, as JavaScript enumerates keys that are array indices.
    - A React state setter called with an updater function is the updater
      applied to the previous state; a handler is a function from the state
      of the component to its next state. *)

From Stdlib Require Import ZArith String Ascii List Bool Lia.
From Stdlib Require Import DecimalString DecimalN.
From stdpp Require Import gmap strings list fin_maps sorting.

Local Open Scope string_scope.
Local Open Scope Z_scope.

(* ===================================================================== *)
(** * Part I: definitions                                                 *)
(* ===================================================================== *)

(** ** JSON values *)

(** The values a JSON document denotes. An object is the list of its
    members in document order. *)
Unset Elimination Schemes.
Inductive json : Type :=
| JNull : json
| JBool : bool -> json
| JNum : Z -> json
| JStr : string -> json
| JArr : list json -> json
| JObj : list (string * json) -> json.
Set Elimination Schemes.

(** [a ?? b] on a value that may be [undefined] ([None]) or [null]. *)
Definition nullish (v : option json) (d : json) : json :=
  match v with
  | None => d
  | Some JNull => d
  | Some x => x
  end.

(** ** Numbers as decimal text *)

(** [String(n)] for an integer [n], as template literals and
    [JSON.stringify] print it: decimal digits, a minus sign for a negative
    number. *)
Definition string_of_N (n : N) : string :=
  NilEmpty.string_of_uint (N.to_uint n).

Definition string_of_Z (z : Z) : string :=
  match z with
  | Z0 => string_of_N 0
  | Zpos p => string_of_N (Npos p)
  | Zneg p => String "-" (string_of_N (Npos p))
  end.

(** ** JSON text *)

Definition dquote : ascii := "034"%char.
Definition backslash : ascii := "092"%char.

(** The sixteen hexadecimal digits [JSON.stringify] writes (lower case). *)
Definition hex_digit (n : N) : ascii :=
  if (n <? 10)%N then ascii_of_N (48 + n) else ascii_of_N (87 + n).

(** [QuoteJSONString], one code unit: the two-character escapes for
    backspace, tab, line feed, form feed, carriage return, the double quote
    and the backslash; [\u00XX] for the other control characters; every
    other code unit as it is. *)
Definition quote_char (c : ascii) : string :=
  let n := N_of_ascii c in
  if (n =? 8)%N then String backslash (String "b" EmptyString)
  else if (n =? 9)%N then String backslash (String "t" EmptyString)
  else if (n =? 10)%N then String backslash (String "n" EmptyString)
  else if (n =? 12)%N then String backslash (String "f" EmptyString)
  else if (n =? 13)%N then String backslash (String "r" EmptyString)
  else if (n =? 34)%N then String backslash (String dquote EmptyString)
  else if (n =? 92)%N then String backslash (String backslash EmptyString)
  else if (n <? 32)%N then
    String backslash (String "u" (String "0" (String "0"
      (String (hex_digit (n / 16)) (String (hex_digit (n mod 16))
         EmptyString)))))
  else String c EmptyString.

Fixpoint quote_body (s : string) : string :=
  match s with
  | EmptyString => EmptyString
  | String c r => quote_char c +:+ quote_body r
  end.

Definition quote (s : string) : string :=
  String dquote (quote_body s +:+ String dquote EmptyString).

(** [JSON.stringify(v)] without indentation. *)
Fixpoint JSON_stringify (v : json) : string :=
  match v with
  | JNull => "null"
  | JBool true => "true"
  | JBool false => "false"
  | JNum z => string_of_Z z
  | JStr s => quote s
  | JArr vs =>
      String "["
        ((fix elements (l : list json) : string :=
            match l with
            | [] => EmptyString
            | x :: l' =>
                JSON_stringify x +:+
                match l' with
                | [] => EmptyString
                | _ :: _ => String "," (elements l')
                end
            end) vs +:+ "]")
  | JObj ms =>
      String "{"
        ((fix members (l : list (string * json)) : string :=
            match l with
            | [] => EmptyString
            | (k, x) :: l' =>
                quote k +:+ String ":" (JSON_stringify x) +:+
                match l' with
                | [] => EmptyString
                | _ :: _ => String "," (members l')
                end
            end) ms +:+ "}")
  end.

(** *** Reading JSON text *)

(** JSON white space: space, tab, line feed, carriage return. *)
Definition is_ws (c : ascii) : bool :=
  let n := N_of_ascii c in
  (n =? 32)%N || (n =? 9)%N || (n =? 10)%N || (n =? 13)%N.

Fixpoint skip_ws (s : string) : string :=
  match s with
  | EmptyString => s
  | String c r => if is_ws c then skip_ws r else s
  end.

Definition is_digit (c : ascii) : bool :=
  let n := N_of_ascii c in (48 <=? n)%N && (n <=? 57)%N.

(** The decimal digit a character writes, as the constructor of
    [Decimal.uint] that prepends it. *)
Definition digit_of (c : ascii) : option (Decimal.uint -> Decimal.uint) :=
  match N_of_ascii c with
  | 48%N => Some Decimal.D0
  | 49%N => Some Decimal.D1
  | 50%N => Some Decimal.D2
  | 51%N => Some Decimal.D3
  | 52%N => Some Decimal.D4
  | 53%N => Some Decimal.D5
  | 54%N => Some Decimal.D6
  | 55%N => Some Decimal.D7
  | 56%N => Some Decimal.D8
  | 57%N => Some Decimal.D9
  | _ => None
  end.

(** The longest run of digits at the head of the text. *)
Fixpoint read_uint (s : string) : Decimal.uint * string :=
  match s with
  | EmptyString => (Decimal.Nil, s)
  | String c r =>
      match digit_of c with
      | Some d => let (u, r') := read_uint r in (d u, r')
      | None => (Decimal.Nil, s)
      end
  end.

(** A numeral continues into a fraction or an exponent. *)
Definition continues_number (s : string) : bool :=
  match s with
  | EmptyString => false
  | String c _ =>
      (c =? ".")%char || (c =? "e")%char || (c =? "E")%char
  end.

(** An unsigned JSON integer: [0], or a digit from 1 to 9 followed by
    digits. A numeral with a fraction or an exponent denotes no integer
    and is not read. *)
Definition read_nat (s : string) : option (N * string) :=
  let (u, r) := read_uint s in
  if Decimal.uint_beq (Decimal.unorm u) u && negb (continues_number r)
  then Some (N.of_uint u, r) else None.

Definition read_number (s : string) : option (Z * string) :=
  match s with
  | EmptyString => None
  | String c r =>
      if (c =? "-")%char then
        match read_nat r with
        | Some (n, r') => Some (- Z.of_N n, r')
        | None => None
        end
      else
        match read_nat s with
        | Some (n, r') => Some (Z.of_N n, r')
        | None => None
        end
  end.

Definition hex_val (c : ascii) : option N :=
  let n := N_of_ascii c in
  if (48 <=? n)%N && (n <=? 57)%N then Some (n - 48)%N
  else if (97 <=? n)%N && (n <=? 102)%N then Some (n - 87)%N
  else if (65 <=? n)%N && (n <=? 70)%N then Some (n - 55)%N
  else None.

(** The code unit of [\uXXXX]; the strings of the model hold the code
    units below 256 only. *)
Definition hex4 (h1 h2 h3 h4 : ascii) : option ascii :=
  match hex_val h1, hex_val h2, hex_val h3, hex_val h4 with
  | Some a, Some b, Some c, Some d =>
      let n := (((a * 16 + b) * 16 + c) * 16 + d)%N in
      if (n <? 256)%N then Some (ascii_of_N n) else None
  | _, _, _, _ => None
  end.

(** The character a two-character escape denotes. *)
Definition unescape (e : ascii) : option ascii :=
  if (e =? dquote)%char then Some dquote
  else if (e =? backslash)%char then Some backslash
  else if (e =? "/")%char then Some "/"%char
  else if (e =? "b")%char then Some "008"%char
  else if (e =? "f")%char then Some "012"%char
  else if (e =? "n")%char then Some "010"%char
  else if (e =? "r")%char then Some "013"%char
  else if (e =? "t")%char then Some "009"%char
  else None.

Definition cons_string (c : ascii) (r : option (string * string))
  : option (string * string) :=
  match r with
  | Some (t, rest) => Some (String c t, rest)
  | None => None
  end.

(** A JSON string, read from behind its opening quote up to and including
    the closing one. *)
Fixpoint read_string (s : string) : option (string * string) :=
  match s with
  | EmptyString => None
  | String c r =>
      if (c =? dquote)%char then Some (EmptyString, r)
      else if (c =? backslash)%char then
        match r with
        | EmptyString => None
        | String e r1 =>
            if (e =? "u")%char then
              match r1 with
              | String h1 (String h2 (String h3 (String h4 r2))) =>
                  match hex4 h1 h2 h3 h4 with
                  | Some ch => cons_string ch (read_string r2)
                  | None => None
                  end
              | _ => None
              end
            else
              match unescape e with
              | Some ch => cons_string ch (read_string r1)
              | None => None
              end
        end
      else if (N_of_ascii c <? 32)%N then None
      else cons_string c (read_string r)
  end.

(** The text starts with the given word; what follows it. *)
Fixpoint expect (word s : string) : option string :=
  match word with
  | EmptyString => Some s
  | String w word' =>
      match s with
      | String c r => if (c =? w)%char then expect word' r else None
      | EmptyString => None
      end
  end.

(** A JSON value and the text behind it. The fuel bounds the number of
    nested and consecutive values; the length of the text is enough. *)
Fixpoint read_value (fuel : nat) (s : string) : option (json * string) :=
  match fuel with
  | O => None
  | S fuel =>
      match skip_ws s with
      | EmptyString => None
      | String c r =>
          if (c =? "-")%char || is_digit c then
            match read_number (String c r) with
            | Some (z, r') => Some (JNum z, r')
            | None => None
            end
          else if (c =? dquote)%char then
            match read_string r with
            | Some (t, r') => Some (JStr t, r')
            | None => None
            end
          else if (c =? "[")%char then
            match skip_ws r with
            | String c' r' =>
                if (c' =? "]")%char then Some (JArr [], r')
                else
                  match read_elements fuel r with
                  | Some (vs, r'') => Some (JArr vs, r'')
                  | None => None
                  end
            | EmptyString => None
            end
          else if (c =? "{")%char then
            match skip_ws r with
            | String c' r' =>
                if (c' =? "}")%char then Some (JObj [], r')
                else
                  match read_members fuel r with
                  | Some (ms, r'') => Some (JObj ms, r'')
                  | None => None
                  end
            | EmptyString => None
            end
          else if (c =? "t")%char then
            match expect "rue" r with
            | Some r' => Some (JBool true, r')
            | None => None
            end
          else if (c =? "f")%char then
            match expect "alse" r with
            | Some r' => Some (JBool false, r')
            | None => None
            end
          else if (c =? "n")%char then
            match expect "ull" r with
            | Some r' => Some (JNull, r')
            | None => None
            end
          else None
      end
  end
with read_elements (fuel : nat) (s : string)
  : option (list json * string) :=
  match fuel with
  | O => None
  | S fuel =>
      match read_value fuel s with
      | Some (v, r) =>
          match skip_ws r with
          | String c r' =>
              if (c =? ",")%char then
                match read_elements fuel r' with
                | Some (vs, r'') => Some (v :: vs, r'')
                | None => None
                end
              else if (c =? "]")%char then Some ([v], r')
              else None
          | EmptyString => None
          end
      | None => None
      end
  end
with read_members (fuel : nat) (s : string)
  : option (list (string * json) * string) :=
  match fuel with
  | O => None
  | S fuel =>
      match skip_ws s with
      | String q r0 =>
          if (q =? dquote)%char then
            match read_string r0 with
            | Some (k, r1) =>
                match skip_ws r1 with
                | String colon r2 =>
                    if (colon =? ":")%char then
                      match read_value fuel r2 with
                      | Some (v, r3) =>
                          match skip_ws r3 with
                          | String c r4 =>
                              if (c =? ",")%char then
                                match read_members fuel r4 with
                                | Some (ms, r5) => Some ((k, v) :: ms, r5)
                                | None => None
                                end
                              else if (c =? "}")%char then
                                Some ([(k, v)], r4)
                              else None
                          | EmptyString => None
                          end
                      | None => None
                      end
                    else None
                | EmptyString => None
                end
            | None => None
            end
          else None
      | EmptyString => None
      end
  end.

(** [JSON.parse(text)]: the value the text denotes, [None] where
    [JSON.parse] throws. The values of the model hold integers and code
    units below 256: a text with a numeral that has a fraction or an
    exponent, or with an escape of a code unit from 256 on, is outside the
    model and is read as no JSON text, although [JSON.parse] accepts it.
    The program itself stores no such text for a selection of the
    model. *)
Definition JSON_parse (text : string) : option json :=
  match read_value (S (String.length text)) text with
  | Some (v, r) =>
      match skip_ws r with
      | EmptyString => Some v
      | String _ _ => None
      end
  | None => None
  end.

(** What may stand behind a value inside a JSON text: nothing, or the
    comma or the bracket that ends the value's place. *)
Definition delimited (rest : string) : bool :=
  match rest with
  | EmptyString => true
  | String c _ => (c =? ",")%char || (c =? "]")%char || (c =? "}")%char
  end.

(** The text does not go on with a digit. *)
Definition no_digit_ahead (rest : string) : Prop :=
  match rest with
  | EmptyString => True
  | String c _ => digit_of c = None
  end.

(** The fuel [read_value] needs for the text of a value. *)
Fixpoint json_size (v : json) : nat :=
  match v with
  | JArr vs =>
      S ((fix elements (l : list json) : nat :=
            match l with
            | [] => O
            | x :: l' => S (json_size x + elements l')
            end) vs)
  | JObj ms =>
      S ((fix members (l : list (string * json)) : nat :=
            match l with
            | [] => O
            | (_, x) :: l' => S (json_size x + members l')
            end) ms)
  | _ => 1%nat
  end.

(** The text [JSON.stringify] writes between the brackets of an array and
    between the braces of an object, and the fuel reading it takes. *)
Fixpoint elements_text (l : list json) : string :=
  match l with
  | [] => EmptyString
  | x :: l' =>
      JSON_stringify x +:+
      match l' with
      | [] => EmptyString
      | _ :: _ => String "," (elements_text l')
      end
  end.

Fixpoint members_text (l : list (string * json)) : string :=
  match l with
  | [] => EmptyString
  | (k, x) :: l' =>
      quote k +:+ String ":" (JSON_stringify x) +:+
      match l' with
      | [] => EmptyString
      | _ :: _ => String "," (members_text l')
      end
  end.

Fixpoint elements_size (l : list json) : nat :=
  match l with
  | [] => O
  | x :: l' => S (json_size x + elements_size l')
  end.

Fixpoint members_size (l : list (string * json)) : nat :=
  match l with
  | [] => O
  | (_, x) :: l' => S (json_size x + members_size l')
  end.

(** Reading the text of a value gives the value back, and what stood
    behind it. *)
Definition reads_back (v : json) : Prop :=
  forall fuel rest,
    (json_size v <= fuel)%nat -> delimited rest = true ->
    read_value fuel (JSON_stringify v +:+ rest) = Some (v, rest).

(** ** The artwork record *)

(** Modelled from the spec: the [Artwork] type declaration (module
    [types]) is not among the sources. The record has the seven fields the
    fetch adapter writes; [id] is a number, as the selection map
    ([Record<number, Artwork>]) and the identifier set ([Set<number>])
    require; the other fields hold whatever JSON value the adapter stored,
    [null] included. *)
Record Artwork : Type := mkArtwork {
  id : Z;
  title : json;
  place_of_origin : json;
  artist_display : json;
  inscriptions : json;
  date_start : json;
  date_end : json
}.

(** [type SelectionMap = Record<number, Artwork>] *)
Abbreviation SelectionMap := (gmap Z Artwork).

(** [m[k] !== undefined] *)
Definition defined (m : SelectionMap) (k : Z) : bool :=
  match m !! k with
  | Some _ => true
  | None => false
  end.

(** ** Selection operations of the component *)

(** The updater functions the handlers hand to [setSelectedMap]: [prev]
    is the previous map, the result is the next one. [items] is the list
    of rows of the current page, captured by the handler. *)

Definition toggleRow_map (row : Artwork) (checked : bool)
    (prev : SelectionMap) : SelectionMap :=
  let copy := prev in
  if checked then <[id row := row]> copy else delete (id row) copy.

(** One turn of the loop [for (const id of pageIds)] in
    [onSelectionChange]. *)
Definition selection_step (items : list Artwork) (newIds : gset Z)
    (prev : SelectionMap) (next : SelectionMap) (i : Z) : SelectionMap :=
  let found := bool_decide (i ∈ newIds) in
  let existed := defined prev i in
  if found && negb existed then
    match List.find (fun it => id it =? i) items with
    | Some row => <[i := row]> next
    | None => next
    end
  else if negb found && existed then delete i next
  else next.

(** What one turn of the loop of [onSelectionChange] leaves under the
    identifier it visits, given what was there before the turn. *)
Definition step_at (items : list Artwork) (newIds : gset Z)
    (prev : SelectionMap) (i : Z) (o : option Artwork) : option Artwork :=
  if bool_decide (i ∈ newIds) && negb (defined prev i) then
    match List.find (fun it => id it =? i) items with
    | Some row => Some row
    | None => o
    end
  else if negb (bool_decide (i ∈ newIds)) && defined prev i then None
  else o.

(** [e.value ?? []] is [default [] value]. *)
Definition onSelectionChange_map (items : list Artwork)
    (value : option (list Artwork)) (prev : SelectionMap) : SelectionMap :=
  let newSelection := default [] value in
  let newIds : gset Z := list_to_set (List.map id newSelection) in
  let pageIds := List.map id items in
  fold_left (selection_step items newIds prev) pageIds prev.

Definition onSelectAllPage_map (items : list Artwork) (prev : SelectionMap)
  : SelectionMap :=
  fold_left (fun next row => <[id row := row]> next) items prev.

Definition onDeselectAllPage_map (items : list Artwork) (prev : SelectionMap)
  : SelectionMap :=
  fold_left (fun next row => delete (id row) next) items prev.

Definition removeFromSelection_map (i : Z) (prev : SelectionMap)
  : SelectionMap :=
  let next := prev in delete i next.

(** [items.filter((it) => selectedMap[it.id] !== undefined)] *)
Definition dtSelection (items : list Artwork) (selectedMap : SelectionMap)
  : list Artwork :=
  List.filter (fun it => defined selectedMap (id it)) items.

(** [sel.length ? sel : null] *)
Definition or_null (sel : list Artwork) : option (list Artwork) :=
  match sel with
  | [] => None
  | _ :: _ => Some sel
  end.

(** The page selection the fetch effect stores after a page arrived. *)
Definition fetched_pageSelection (items : list Artwork)
    (selectedMap : SelectionMap) : option (list Artwork) :=
  let sel := List.filter (fun it => defined selectedMap (id it)) items in
  or_null sel.

(** The rows a page selection holds; [null] holds none. *)
Definition rows_of (sel : option (list Artwork)) : list Artwork :=
  default [] sel.

(** The invariant of the selection map: a record is stored under its own
    identifier. *)
Definition keyed_by_id (m : SelectionMap) : Prop :=
  forall k a, m !! k = Some a -> id a = k.

(** ** The selection map as a JavaScript value *)

(** The object an artwork record is: its seven properties in the order
    the fetch adapter writes them. *)
Definition js_of_Artwork (a : Artwork) : json :=
  JObj [("id", JNum (id a));
        ("title", title a);
        ("place_of_origin", place_of_origin a);
        ("artist_display", artist_display a);
        ("inscriptions", inscriptions a);
        ("date_start", date_start a);
        ("date_end", date_end a)].

(** The properties of the selection map in the order in which
    JavaScript enumerates them: the keys that are array indices, as the
    identifiers of the catalogue are, in ascending order. (A key that is
    no array index, a negative number, would come behind them in the order
    of its insertion, which the map does not record.) *)
Definition key_le (x y : Z * Artwork) : Prop := x.1 <= y.1.

#[global] Instance key_le_dec x y : Decision (key_le x y) :=
  decide (x.1 <= y.1).

Definition Object_entries (m : SelectionMap) : list (Z * Artwork) :=
  merge_sort key_le (map_to_list m).

(** [Object.keys(m)] and [Object.values(m)]. *)
Definition Object_keys (m : SelectionMap) : list Z := (Object_entries m).*1.
Definition Object_values (m : SelectionMap) : list Artwork :=
  (Object_entries m).*2.

(** The object the selection map is: one property per key, named by the
    decimal text of the identifier. *)
Definition js_of_SelectionMap (m : SelectionMap) : json :=
  JObj (List.map (fun kv => (string_of_Z kv.1, js_of_Artwork kv.2))
          (Object_entries m)).

(** [v[k]] on a value read from JSON text: of the members of an object
    with one name the last one counts; a value that is no object has no
    such property. *)
Fixpoint assoc_last (k : string) (ms : list (string * json)) : option json :=
  match ms with
  | [] => None
  | (k', x) :: ms' =>
      match assoc_last k ms' with
      | Some y => Some y
      | None => if String.eqb k k' then Some x else None
      end
  end.

Definition jget (k : string) (v : json) : option json :=
  match v with
  | JObj ms => assoc_last k ms
  | _ => None
  end.

Definition as_number (v : option json) : option Z :=
  match v with
  | Some (JNum z) => Some z
  | _ => None
  end.

(** The cast [as Artwork] of a value read from JSON text: the record the
    value is, [None] for a value that is no record of the type. *)
Definition as_Artwork (v : json) : option Artwork :=
  i ← as_number (jget "id" v);
  t ← jget "title" v;
  p ← jget "place_of_origin" v;
  a ← jget "artist_display" v;
  n ← jget "inscriptions" v;
  s ← jget "date_start" v;
  e ← jget "date_end" v;
  Some (mkArtwork i t p a n s e).

(** The number a property name is the decimal text of. *)
Definition key_of_string (s : string) : option Z :=
  match read_number s with
  | Some (z, EmptyString) =>
      if String.eqb (string_of_Z z) s then Some z else None
  | _ => None
  end.

Definition add_entry (acc : option SelectionMap) (kv : string * json)
  : option SelectionMap :=
  m ← acc; k ← key_of_string kv.1; a ← as_Artwork kv.2; Some (<[k := a]> m).

(** The cast [as SelectionMap] of a value read from JSON text. *)
Definition as_SelectionMap (v : json) : option SelectionMap :=
  match v with
  | JObj ms => fold_left add_entry ms (Some ∅)
  | _ => None
  end.

(** ** The fetch adapter *)

(** What a rejected promise carries. *)
Inductive exn : Type :=
| Error (message : string)
| SyntaxError
| TypeError.

Module Api.

(** A record of the response's [data] array, as the adapter reads it: an
    identifier and six properties of which each may be missing
    ([None]). *)
Record RawArtwork : Type := {
  raw_id : Z;
  raw_title : option json;
  raw_place_of_origin : option json;
  raw_artist_display : option json;
  raw_inscriptions : option json;
  raw_date_start : option json;
  raw_date_end : option json
}.

(** [None] is a property that is missing or [null]. *)
Record Pagination : Type := {
  pagination_total : option Z;
  pagination_limit : option Z;
  pagination_offset : option Z;
  pagination_total_pages : option Z
}.

Record ArtworkApiResponse : Type := {
  data : option (list RawArtwork);
  pagination : option Pagination
}.

(** What the adapter finds under [json.data]: nothing (the property is
    missing, [null] or another falsy value), an array whose elements are
    records or [null] ([None]), or a truthy value that is no array. *)
Inductive Data : Type :=
| NoData
| DataArray (elements : list (option RawArtwork))
| NoArray.

(** The JSON document [res.json()] resolves to, as far as the adapter
    looks at it: the document [null], or a document with what it holds
    under [data] and under [pagination]. A document that is a number, a
    text or an array holds nothing under either. Left out by the types are
    the documents of which the adapter would return, without raising, a
    value that is not of its declared result type: a record without a
    numeric [id], a [total] or a [limit] that is no number. *)
Inductive Document : Type :=
| NullDocument
| Fields (doc_data : Data) (doc_pagination : option Pagination).

(** The response of [fetch]: its [ok] flag and what [res.json()] resolves
    to, [None] when the body is no JSON document and [res.json()]
    rejects. *)
Record Response : Type := {
  ok : bool;
  document : option Document
}.

(** The records of an array without a [null] element. *)
Fixpoint records (elements : list (option RawArtwork))
  : option (list RawArtwork) :=
  match elements with
  | [] => Some []
  | None :: _ => None
  | Some d :: rest => cons d <$> records rest
  end.

(** The document as a value of the declared type [ArtworkApiResponse],
    if it is one. *)
Definition res_json (res : Response) : option ArtworkApiResponse :=
  match document res with
  | Some (Fields NoData p) => Some {| data := None; pagination := p |}
  | Some (Fields (DataArray elements) p) =>
      (fun l => {| data := Some l; pagination := p |}) <$> records elements
  | _ => None
  end.

Record Page : Type := {
  items : list Artwork;
  total : Z;
  per_page : Z
}.

Definition url (page limit : Z) : string :=
  "https://api.artic.edu/api/v1/artworks?page=" +:+ string_of_Z page
  +:+ "&limit=" +:+ string_of_Z limit
  +:+ "&fields=id,title,place_of_origin,artist_display,inscriptions,date_start,date_end".

(** The body of [(json.data || []).map(...)]. *)
Definition normalize (d : RawArtwork) : Artwork :=
  {| id := raw_id d;
     title := nullish (raw_title d) JNull;
     place_of_origin := nullish (raw_place_of_origin d) JNull;
     artist_display := nullish (raw_artist_display d) JNull;
     inscriptions := nullish (raw_inscriptions d) JNull;
     date_start := nullish (raw_date_start d) JNull;
     date_end := nullish (raw_date_end d) JNull |}.

(** [array.map((d) => ...)]: reading a property of a [null] element
    raises ([None]). *)
Fixpoint map_records (elements : list (option RawArtwork))
  : option (list Artwork) :=
  match elements with
  | [] => Some []
  | None :: _ => None
  | Some d :: rest => cons (normalize d) <$> map_records rest
  end.

(** [(json.data || []).map(...)]: calling [map] of a value that is no
    array raises. *)
Definition map_data (d : Data) : option (list Artwork) :=
  match d with
  | NoData => Some []
  | DataArray elements => map_records elements
  | NoArray => None
  end.

(** [fetchArtworksPage(page = 1, limit = 10)], given what [fetch] answers
    to a request: [inl] is a rejection, [inr] the resolved page. *)
Definition fetchArtworksPage (fetch : string -> exn + Response)
    (page limit : option Z) : exn + Page :=
  let page := default 1 page in
  let limit := default 10 limit in
  match fetch (url page limit) with
  | inl e => inl e
  | inr res =>
      if negb (ok res) then inl (Error "Failed to fetch artworks")
      else
        match document res with
        | None => inl SyntaxError
        | Some NullDocument => inl TypeError
        | Some (Fields d p) =>
            match map_data d with
            | None => inl TypeError
            | Some items =>
                let total := default 0 (p ≫= pagination_total) in
                let per_page := default limit (p ≫= pagination_limit) in
                inr {| items := items; total := total;
                       per_page := per_page |}
            end
        end
  end.

End Api.

(** ** The component *)

Definition STORAGE_KEY : string := "selected_artworks_map_v1".

(** One run of the fetch effect: the page and the rows per page it asked
    for, the selection map its closure holds, its [mounted] flag, and
    whether its promise has settled. *)
Record FetchEffect : Type := {
  eff_page : Z;
  eff_rowsPerPage : Z;
  eff_selectedMap : SelectionMap;
  mounted : bool;
  settled : bool
}.

(** The state of the component ([useState]) and of what it acts on: the
    local storage, the console, and the runs of the fetch effect. *)
Record AppState : Type := {
  page : Z;
  rowsPerPage : Z;
  loading : bool;
  items : list Artwork;
  totalRecords : Z;
  selectedMap : SelectionMap;
  visibleSidebar : bool;
  pageSelection : option (list Artwork);
  localStorage : gmap string string;
  console : list exn;
  effects : list FetchEffect
}.

Definition initial_state (storage : gmap string string) : AppState :=
  {| page := 1; rowsPerPage := 10; loading := false; items := [];
     totalRecords := 0; selectedMap := ∅; visibleSidebar := false;
     pageSelection := None; localStorage := storage; console := [];
     effects := [] |}.

Definition setPage (v : Z) (st : AppState) : AppState :=
  {| page := v; rowsPerPage := rowsPerPage st; loading := loading st;
     items := items st; totalRecords := totalRecords st;
     selectedMap := selectedMap st; visibleSidebar := visibleSidebar st;
     pageSelection := pageSelection st; localStorage := localStorage st;
     console := console st; effects := effects st |}.

Definition setRowsPerPage (v : Z) (st : AppState) : AppState :=
  {| page := page st; rowsPerPage := v; loading := loading st;
     items := items st; totalRecords := totalRecords st;
     selectedMap := selectedMap st; visibleSidebar := visibleSidebar st;
     pageSelection := pageSelection st; localStorage := localStorage st;
     console := console st; effects := effects st |}.

Definition setLoading (v : bool) (st : AppState) : AppState :=
  {| page := page st; rowsPerPage := rowsPerPage st; loading := v;
     items := items st; totalRecords := totalRecords st;
     selectedMap := selectedMap st; visibleSidebar := visibleSidebar st;
     pageSelection := pageSelection st; localStorage := localStorage st;
     console := console st; effects := effects st |}.

Definition setItems (v : list Artwork) (st : AppState) : AppState :=
  {| page := page st; rowsPerPage := rowsPerPage st; loading := loading st;
     items := v; totalRecords := totalRecords st;
     selectedMap := selectedMap st; visibleSidebar := visibleSidebar st;
     pageSelection := pageSelection st; localStorage := localStorage st;
     console := console st; effects := effects st |}.

Definition setTotalRecords (v : Z) (st : AppState) : AppState :=
  {| page := page st; rowsPerPage := rowsPerPage st; loading := loading st;
     items := items st; totalRecords := v;
     selectedMap := selectedMap st; visibleSidebar := visibleSidebar st;
     pageSelection := pageSelection st; localStorage := localStorage st;
     console := console st; effects := effects st |}.

(** [setSelectedMap] with an updater function. *)
Definition setSelectedMap (f : SelectionMap -> SelectionMap) (st : AppState)
  : AppState :=
  {| page := page st; rowsPerPage := rowsPerPage st; loading := loading st;
     items := items st; totalRecords := totalRecords st;
     selectedMap := f (selectedMap st); visibleSidebar := visibleSidebar st;
     pageSelection := pageSelection st; localStorage := localStorage st;
     console := console st; effects := effects st |}.

Definition setVisibleSidebar (v : bool) (st : AppState) : AppState :=
  {| page := page st; rowsPerPage := rowsPerPage st; loading := loading st;
     items := items st; totalRecords := totalRecords st;
     selectedMap := selectedMap st; visibleSidebar := v;
     pageSelection := pageSelection st; localStorage := localStorage st;
     console := console st; effects := effects st |}.

Definition setPageSelection (v : option (list Artwork)) (st : AppState)
  : AppState :=
  {| page := page st; rowsPerPage := rowsPerPage st; loading := loading st;
     items := items st; totalRecords := totalRecords st;
     selectedMap := selectedMap st; visibleSidebar := visibleSidebar st;
     pageSelection := v; localStorage := localStorage st;
     console := console st; effects := effects st |}.

(** [localStorage.setItem(key, value)] *)
Definition setItem (key value : string) (st : AppState) : AppState :=
  {| page := page st; rowsPerPage := rowsPerPage st; loading := loading st;
     items := items st; totalRecords := totalRecords st;
     selectedMap := selectedMap st; visibleSidebar := visibleSidebar st;
     pageSelection := pageSelection st;
     localStorage := <[key := value]> (localStorage st);
     console := console st; effects := effects st |}.

(** [console.error(err)] *)
Definition console_error (err : exn) (st : AppState) : AppState :=
  {| page := page st; rowsPerPage := rowsPerPage st; loading := loading st;
     items := items st; totalRecords := totalRecords st;
     selectedMap := selectedMap st; visibleSidebar := visibleSidebar st;
     pageSelection := pageSelection st; localStorage := localStorage st;
     console := console st ++ [err]; effects := effects st |}.

Definition set_effects (v : list FetchEffect) (st : AppState) : AppState :=
  {| page := page st; rowsPerPage := rowsPerPage st; loading := loading st;
     items := items st; totalRecords := totalRecords st;
     selectedMap := selectedMap st; visibleSidebar := visibleSidebar st;
     pageSelection := pageSelection st; localStorage := localStorage st;
     console := console st; effects := v |}.

(** *** Effects *)

(** The mount-time effect that loads the persisted selection. A stored
    text that [JSON.parse] rejects is ignored. The result is [None] when
    the parsed value is no selection map: the cast [as SelectionMap] is
    not checked, and the state would leave its declared type. *)
Definition load_effect (st : AppState) : option AppState :=
  match localStorage st !! STORAGE_KEY with
  | None => Some st
  | Some raw =>
      if String.eqb raw "" then Some st
      else
        match JSON_parse raw with
        | None => Some st
        | Some parsed =>
            match as_SelectionMap parsed with
            | Some m => Some (setSelectedMap (fun _ => m) st)
            | None => None
            end
        end
  end.

(** The effect that persists the selection whenever it changed. *)
Definition persist_effect (st : AppState) : AppState :=
  setItem STORAGE_KEY (JSON_stringify (js_of_SelectionMap (selectedMap st)))
    st.

(** The body of the fetch effect: a new run with [mounted = true],
    [setLoading(true)], and the request for the current page. *)
Definition fetch_effect (st : AppState) : AppState :=
  let run := {| eff_page := page st; eff_rowsPerPage := rowsPerPage st;
                eff_selectedMap := selectedMap st;
                mounted := true; settled := false |} in
  set_effects (effects st ++ [run]) (setLoading true st).

(** The cleanup the fetch effect returned: [mounted = false]. *)
Definition unmount (e : FetchEffect) : FetchEffect :=
  {| eff_page := eff_page e; eff_rowsPerPage := eff_rowsPerPage e;
     eff_selectedMap := eff_selectedMap e;
     mounted := false; settled := settled e |}.

Definition cleanup (n : nat) (st : AppState) : AppState :=
  set_effects (alter unmount n (effects st)) st.

(** The fetch effect runs again after a render in which the page, the
    rows per page or the selection map changed: first the cleanup of the
    previous run, then the body. *)
Definition rerun_fetch_effect (st : AppState) : AppState :=
  fetch_effect (cleanup (pred (length (effects st))) st).

(** The three handlers chained on the promise of a run. *)
Definition then_handler (e : FetchEffect) (r : Api.Page) (st : AppState)
  : AppState :=
  if negb (mounted e) then st
  else
    setPageSelection (fetched_pageSelection (Api.items r) (eff_selectedMap e))
      (setTotalRecords (Api.total r) (setItems (Api.items r) st)).

Definition catch_handler (err : exn) (st : AppState) : AppState :=
  setPageSelection None
    (setTotalRecords 0 (setItems [] (console_error err st))).

Definition finally_handler (e : FetchEffect) (st : AppState) : AppState :=
  if mounted e then setLoading false st else st.

Definition settle_run (e : FetchEffect) : FetchEffect :=
  {| eff_page := eff_page e; eff_rowsPerPage := eff_rowsPerPage e;
     eff_selectedMap := eff_selectedMap e;
     mounted := mounted e; settled := true |}.

(** The promise of run [n] settles, [net] being what [fetch] answered: a
    rejection or a response. *)
Definition settle (n : nat) (net : exn + Api.Response) (st : AppState)
  : AppState :=
  match effects st !! n with
  | None => st
  | Some e =>
      if settled e then st
      else
        let st1 := set_effects (alter settle_run n (effects st)) st in
        let st2 :=
          match Api.fetchArtworksPage (fun _ => net)
                  (Some (eff_page e)) (Some (eff_rowsPerPage e)) with
          | inr r => then_handler e r st1
          | inl err => catch_handler err st1
          end in
        finally_handler e st2
  end.

(** *** Event handlers *)

Definition toggleRow (row : Artwork) (checked : bool) (st : AppState)
  : AppState :=
  setSelectedMap (toggleRow_map row checked) st.

Definition removeFromSelection (i : Z) (st : AppState) : AppState :=
  setSelectedMap (removeFromSelection_map i) st.

Definition onSelectionChange (value : option (list Artwork)) (st : AppState)
  : AppState :=
  let newSelection := default [] value in
  setPageSelection (or_null newSelection)
    (setSelectedMap (onSelectionChange_map (items st) value) st).

Definition onSelectAllPage (st : AppState) : AppState :=
  setPageSelection (or_null (items st))
    (setSelectedMap (onSelectAllPage_map (items st)) st).

Definition onDeselectAllPage (st : AppState) : AppState :=
  setPageSelection None
    (setSelectedMap (onDeselectAllPage_map (items st)) st).

(** [onValueChange] of the rows-per-page input. *)
Definition onRowsPerPageChange (value : option Z) (st : AppState)
  : AppState :=
  let val := default 10 value in
  setPage 1 (setRowsPerPage val st).

(** [onPageChange] of the paginator, whose pages count from zero. *)
Definition onPageChange (e_page : option Z) (st : AppState) : AppState :=
  let newPage := default 0 e_page + 1 in
  setPage newPage st.

(** *** What the component renders *)

(** [a ?? b] on a value that is never [undefined]. *)
Definition coalesce (v d : json) : json :=
  match v with
  | JNull => d
  | _ => v
  end.

(** An entry of the side panel: its key, its two lines, and the
    identifier its remove button hands to [removeFromSelection]. *)
Record SelectedItem : Type := {
  item_key : Z;
  selected_title : json;
  selected_sub : json;
  remove_id : Z
}.

Definition selected_item (a : Artwork) : SelectedItem :=
  {| item_key := id a;
     selected_title := coalesce (title a) (JStr "(untitled)");
     selected_sub :=
       coalesce (coalesce (artist_display a) (place_of_origin a)) (JStr "");
     remove_id := id a |}.

Record View : Type := {
  selected_button_label : string;
  table_value : list Artwork;
  table_selection : list Artwork;
  table_loading : bool;
  paginator_first : Z;
  paginator_rows : Z;
  paginator_totalRecords : Z;
  sidebar_visible : bool;
  sidebar_heading : string;
  sidebar_no_items : option string;
  sidebar_items : list SelectedItem
}.

Definition render (st : AppState) : View :=
  let count := Z.of_nat (length (Object_keys (selectedMap st))) in
  {| selected_button_label := "Selected: " +:+ string_of_Z count;
     table_value := items st;
     table_selection := dtSelection (items st) (selectedMap st);
     table_loading := loading st;
     paginator_first := (page st - 1) * rowsPerPage st;
     paginator_rows := rowsPerPage st;
     paginator_totalRecords := totalRecords st;
     sidebar_visible := visibleSidebar st;
     sidebar_heading := "Selected Artworks (" +:+ string_of_Z count +:+ ")";
     sidebar_no_items :=
       if (count =? 0) then Some "No items selected." else None;
     sidebar_items := List.map selected_item (Object_values (selectedMap st))
  |}.


(** A raw value with [undefined] and [null] replaced by [null], in the
    words of the specification. *)
Definition null_replaced (raw : option json) : json :=
  match raw with
  | Some v => v
  | None => JNull
  end.

(** A raw record and the artwork it is normalized to, field by field. *)
Definition normalized (d : Api.RawArtwork) (a : Artwork) : Prop :=
  id a = Api.raw_id d /\
  title a = null_replaced (Api.raw_title d) /\
  place_of_origin a = null_replaced (Api.raw_place_of_origin d) /\
  artist_display a = null_replaced (Api.raw_artist_display d) /\
  inscriptions a = null_replaced (Api.raw_inscriptions d) /\
  date_start a = null_replaced (Api.raw_date_start d) /\
  date_end a = null_replaced (Api.raw_date_end d).

(** What [fetchArtworksPage] gives for a run, given what [fetch]
    answers. *)
Definition outcome (e : FetchEffect) (net : exn + Api.Response)
  : exn + Api.Page :=
  Api.fetchArtworksPage (fun _ => net)
    (Some (eff_page e)) (Some (eff_rowsPerPage e)).

(** *** Sample states *)

Definition sample_artwork : Artwork :=
  mkArtwork 27992 (JStr "A Sunday on La Grande Jatte") (JStr "France")
    (JStr "Georges Seurat") JNull (JNum 1884) (JNum 1886).

Definition sample_raw : Api.RawArtwork :=
  {| Api.raw_id := 27992;
     Api.raw_title := Some (JStr "A Sunday on La Grande Jatte");
     Api.raw_place_of_origin := Some (JStr "France");
     Api.raw_artist_display := Some (JStr "Georges Seurat");
     Api.raw_inscriptions := None;
     Api.raw_date_start := Some (JNum 1884);
     Api.raw_date_end := Some (JNum 1886) |}.

Definition sample_response : Api.Response :=
  {| Api.ok := true;
     Api.document :=
       Some (Api.Fields (Api.DataArray [Some sample_raw])
               (Some {| Api.pagination_total := Some 120000;
                        Api.pagination_limit := Some 10;
                        Api.pagination_offset := Some 10;
                        Api.pagination_total_pages := Some 12000 |})) |}.

Definition server_error : Api.Response :=
  {| Api.ok := false; Api.document := None |}.

(** An ok response whose body is no JSON document, and one whose body is
    the JSON document with the one member [data], an array holding
    [null]. *)
Definition not_json_response : Api.Response :=
  {| Api.ok := true; Api.document := None |}.

Definition null_record_response : Api.Response :=
  {| Api.ok := true;
     Api.document := Some (Api.Fields (Api.DataArray [None]) None) |}.

(** The component is mounted and requests page 1; the user moves to page
    2 before the answer is there, so the effect cleans up and requests
    page 2, whose answer arrives and is displayed. *)
Definition page_two_displayed : AppState :=
  settle 1 (inr sample_response)
    (rerun_fetch_effect
       (onPageChange (Some 1) (fetch_effect (initial_state ∅)))).

(** ** Mounting the component *)

(** An effect sees the state of the render it belongs to: [rendered] is
    that state, [st] the state the effect acts on. *)
Definition persist_effect_of (rendered st : AppState) : AppState :=
  setItem STORAGE_KEY
    (JSON_stringify (js_of_SelectionMap (selectedMap rendered))) st.

Definition fetch_effect_of (rendered st : AppState) : AppState :=
  let run := {| eff_page := page rendered;
                eff_rowsPerPage := rowsPerPage rendered;
                eff_selectedMap := selectedMap rendered;
                mounted := true; settled := false |} in
  set_effects (effects st ++ [run]) (setLoading true st).

(** Whether the load effect calls [setSelectedMap]. *)
Definition load_sets (st : AppState) : bool :=
  match localStorage st !! STORAGE_KEY with
  | None => false
  | Some raw =>
      if String.eqb raw "" then false
      else match JSON_parse raw with
           | Some _ => true
           | None => false
           end
  end.

(** The three effects of the first render, in the order of their
    declaration. The selection map the load effect sets is the state of
    the next render; the two other effects still see the render they
    belong to. *)
Definition mount_effects (rendered st : AppState) : option AppState :=
  st1 ← load_effect st;
  Some (fetch_effect_of rendered (persist_effect_of rendered st1)).

(** Mounting the component on a storage, as the entry module does. The
    first render is made of the initial state, and its effects run. Under
    [strict], which is React's StrictMode in a development build (the
    entry module wraps the application in it), the cleanups of these
    effects run and the effects run once more, of the same render. Then
    the component renders again; if the selection map was set, the persist
    effect and the fetch effect run again, of the new render. *)
Definition mount (strict : bool) (storage : gmap string string)
  : option AppState :=
  let rendered := initial_state storage in
  st1 ← mount_effects rendered rendered;
  let unmounted := cleanup (pred (length (effects st1))) st1 in
  st2 ← (if strict then mount_effects rendered unmounted else Some st1);
  let changed := load_sets rendered || (strict && load_sets unmounted) in
  Some (if changed then rerun_fetch_effect (persist_effect st2) else st2).

(** ** The dates column *)

(** [!!v]: every value is truthy but [false], [0], the empty string and
    [null]. *)
Definition truthy (v : json) : bool :=
  match v with
  | JNull => false
  | JBool b => b
  | JNum z => negb (z =? 0)
  | JStr s => negb (String.eqb s "")
  | JArr _ => true
  | JObj _ => true
  end.

(** [a || b] *)
Definition js_or (a b : json) : json := if truthy a then a else b.

(** [a === b] on the values of two properties of a record read from a
    JSON document: numbers, strings and booleans are compared by value; an
    array or an object is identical to itself only, and two properties
    never hold the same one. *)
Definition strict_eq (a b : json) : bool :=
  match a, b with
  | JNull, JNull => true
  | JBool x, JBool y => Bool.eqb x y
  | JNum x, JNum y => x =? y
  | JStr x, JStr y => String.eqb x y
  | _, _ => false
  end.

(** [String(v)], as a template literal converts the value: an array is
    its elements joined by commas, [null] elements left empty; an object
    is [[object Object]]. *)
Fixpoint ToString (v : json) : string :=
  match v with
  | JNull => "null"
  | JBool true => "true"
  | JBool false => "false"
  | JNum z => string_of_Z z
  | JStr s => s
  | JArr vs =>
      (fix join (l : list json) : string :=
         match l with
         | [] => EmptyString
         | x :: l' =>
             match x with
             | JNull => EmptyString
             | _ => ToString x
             end +:+
             match l' with
             | [] => EmptyString
             | _ :: _ => String "," (join l')
             end
         end) vs
  | JObj _ => "[object Object]"
  end.

(** The separator of the two dates: a space, a dash (written here as the
    bytes of its UTF-8 form) and a space. *)
Definition dash : string := " — ".

(** The formatter of the dates column. *)
Definition renderDates (row : Artwork) : json :=
  let s := coalesce (date_start row) (JStr "") in
  let e := coalesce (date_end row) (JStr "") in
  if strict_eq s e || negb (truthy s) || negb (truthy e)
  then js_or (js_or s e) (JStr "-")
  else JStr (ToString s +:+ dash +:+ ToString e).

(** ** Runs of the component *)

(** What can happen to the mounted component: the user acts on it, an
    effect runs after a render, or the promise of a run of the fetch
    effect settles. *)
Inductive action : Type :=
| SelectionChange (value : option (list Artwork))
| SelectAllPage
| DeselectAllPage
| RemoveFromSelection (i : Z)
| ToggleRow (row : Artwork) (checked : bool)
| PageChange (e_page : option Z)
| RowsPerPageChange (value : option Z)
| ShowSidebar
| HideSidebar
| RunPersistEffect
| RunFetchEffect
| Settle (n : nat) (net : exn + Api.Response).

Definition perform (a : action) (st : AppState) : AppState :=
  match a with
  | SelectionChange value => onSelectionChange value st
  | SelectAllPage => onSelectAllPage st
  | DeselectAllPage => onDeselectAllPage st
  | RemoveFromSelection i => removeFromSelection i st
  | ToggleRow row checked => toggleRow row checked st
  | PageChange e_page => onPageChange e_page st
  | RowsPerPageChange value => onRowsPerPageChange value st
  | ShowSidebar => setVisibleSidebar true st
  | HideSidebar => setVisibleSidebar false st
  | RunPersistEffect => persist_effect st
  | RunFetchEffect => rerun_fetch_effect st
  | Settle n net => settle n net st
  end.

(** A run of the component: actions in any order. The order in which
    React runs the effects after a render is one of these orders. *)
Definition perform_all (l : list action) (st : AppState) : AppState :=
  fold_left (fun s a => perform a s) l st.

(** The latest run of the fetch effect. *)
Definition latest_run (st : AppState) : option FetchEffect :=
  effects st !! pred (length (effects st)).

(** The runs of the fetch effect are in order: every run but the latest
    is unmounted, the latest is mounted, and the loading flag is set
    exactly while the latest run has not settled. *)
Definition runs_in_order (st : AppState) : Prop :=
  (forall n e, effects st !! n = Some e ->
     (S n < length (effects st))%nat -> mounted e = false) /\
  (forall e, latest_run st = Some e -> mounted e = true) /\
  (loading st = true <-> exists e, latest_run st = Some e /\ settled e = false).

(** The identifiers of the rows of a page. *)
Definition page_ids (items : list Artwork) : gset Z :=
  list_to_set (List.map id items).

(** An artwork under another title, and the start of a session: the
    first request, a move to page 2 and the second request. *)
(** Page 2 is displayed while an artwork of another page is selected. *)
Definition other_page_artwork : Artwork :=
  mkArtwork 5 (JStr "Untitled") JNull JNull JNull JNull JNull.

Definition off_page_selected : AppState :=
  toggleRow other_page_artwork true page_two_displayed.

(** Page 2 is displayed; the user moves on to page 3, and the fetch
    effect requests it. *)
Definition page_three_requested : AppState :=
  rerun_fetch_effect (onPageChange (Some 2) page_two_displayed).

Definition retitled_artwork : Artwork :=
  mkArtwork 27992 (JStr "Un dimanche") (JStr "France")
    (JStr "Georges Seurat") JNull (JNum 1884) (JNum 1886).

Definition two_requests : list action :=
  [RunFetchEffect; PageChange (Some 1); RunFetchEffect].

(* ===================================================================== *)
(** * Part II: properties                                                 *)
(* ===================================================================== *)

Section Selection.

Implicit Types (items : list Artwork) (m prev next : SelectionMap).
Implicit Types (a row : Artwork) (k i : Z) (st : AppState).

Lemma defined_is_Some m k : defined m k = true <-> is_Some (m !! k).
Proof.
  unfold defined. destruct (m !! k) as [a|]; split; intros H.
  - by exists a.
  - done.
  - discriminate.
  - by destruct H.
Qed.

Lemma defined_dom m k : defined m k = true <-> k ∈ dom m.
Proof. rewrite defined_is_Some. symmetry. apply elem_of_dom. Qed.

(** C1. A row is checked on the current page exactly when it is one of
    the page's rows and its identifier is a key of the selection map; this
    holds for the derived table selection [dtSelection] and for the page
    selection stored after a fetch. *)
Theorem dtSelection_is_intersection items m a :
  (In a (dtSelection items m) <-> In a items /\ id a ∈ dom m) /\
  (In a (rows_of (fetched_pageSelection items m))
     <-> In a items /\ id a ∈ dom m).
Proof.
  assert (Hf : In a (List.filter (fun it => defined m (id it)) items)
               <-> In a items /\ id a ∈ dom m).
  { rewrite filter_In. by rewrite defined_dom. }
  split; [exact Hf|].
  unfold fetched_pageSelection, rows_of, or_null.
  destruct (List.filter _ items) as [|x l] eqn:E; simpl; [|exact Hf].
  rewrite <- Hf. simpl. tauto.
Qed.

(** *** The loop of [onSelectionChange] *)

Lemma selection_step_lookup items newIds prev next i k :
  selection_step items newIds prev next i !! k
  = if decide (k = i) then step_at items newIds prev i (next !! i)
    else next !! k.
Proof.
  unfold selection_step, step_at.
  destruct (decide (k = i)) as [->|Hne].
  - destruct (bool_decide (i ∈ newIds) && negb (defined prev i)).
    + destruct (List.find _ items); [apply lookup_insert_eq|done].
    + destruct (negb (bool_decide (i ∈ newIds)) && defined prev i);
        [apply lookup_delete_eq|done].
  - destruct (bool_decide (i ∈ newIds) && negb (defined prev i)).
    + destruct (List.find _ items); [by apply lookup_insert_ne|done].
    + destruct (negb (bool_decide (i ∈ newIds)) && defined prev i);
        [by apply lookup_delete_ne|done].
Qed.

Lemma step_at_idem items newIds prev i o :
  step_at items newIds prev i (step_at items newIds prev i o)
  = step_at items newIds prev i o.
Proof.
  unfold step_at.
  destruct (bool_decide (i ∈ newIds) && negb (defined prev i)).
  - by destruct (List.find _ items).
  - by destruct (negb (bool_decide (i ∈ newIds)) && defined prev i).
Qed.

Lemma selection_loop_lookup items newIds prev (l : list Z) next k :
  fold_left (selection_step items newIds prev) l next !! k
  = if decide (k ∈ l) then step_at items newIds prev k (next !! k)
    else next !! k.
Proof.
  revert next. induction l as [|i l IH]; intros next; simpl.
  - destruct (decide (k ∈ [])) as [H|]; [by apply elem_of_nil in H|done].
  - rewrite IH, !selection_step_lookup.
    destruct (decide (k = i)) as [->|Hne].
    + rewrite step_at_idem.
      destruct (decide (i ∈ l)) as [Hl|Hl],
        (decide (i ∈ i :: l)) as [Hc|Hc]; try done.
      all: destruct Hc; apply list_elem_of_here.
    + destruct (decide (k ∈ l)) as [Hl|Hl],
        (decide (k ∈ i :: l)) as [Hc|Hc]; try done.
      * destruct Hc. by apply list_elem_of_further.
      * apply elem_of_cons in Hc as [?|?]; done.
Qed.

Lemma find_id_Some items k :
  In k (List.map id items) ->
  exists row, List.find (fun it => id it =? k) items = Some row
              /\ In row items /\ id row = k.
Proof.
  intros Hin. apply in_map_iff in Hin as (x & Hx & Hxin).
  destruct (List.find (fun it => id it =? k) items) as [row|] eqn:E.
  - exists row. apply find_some in E as [? ?%Z.eqb_eq]. auto.
  - exfalso. apply (find_none _ _ E) in Hxin. lia.
Qed.

Lemma elem_of_newIds (sel : list Artwork) k :
  k ∈ (list_to_set (List.map id sel) : gset Z) <-> In k (List.map id sel).
Proof. rewrite elem_of_list_to_set. apply list_elem_of_In. Qed.

Lemma onSelectionChange_map_page_ids items value prev k :
  In k (List.map id items) ->
  (k ∈ dom (onSelectionChange_map items value prev)
     <-> In k (List.map id (default [] value))) /\
  (prev !! k = None -> In k (List.map id (default [] value)) ->
     exists row,
       onSelectionChange_map items value prev !! k = Some row
       /\ List.find (fun it => id it =? k) items = Some row
       /\ In row items /\ id row = k).
Proof.
  intros Hpage. unfold onSelectionChange_map.
  destruct (find_id_Some items k Hpage) as (row & Hfind & Hrow & Hid).
  assert (Hlk : fold_left
            (selection_step items
               (list_to_set (List.map id (default [] value))) prev)
            (List.map id items) prev !! k
          = step_at items (list_to_set (List.map id (default [] value)))
              prev k (prev !! k)).
  { rewrite selection_loop_lookup.
    destruct (decide _) as [|Hn]; [done|]. by rewrite list_elem_of_In in Hn. }
  split.
  - rewrite elem_of_dom, Hlk, <- elem_of_newIds. unfold step_at, defined.
    rewrite Hfind.
    destruct (prev !! k) as [a|] eqn:Ek; simpl;
      case_bool_decide as Hd; simpl; split; intros HH;
      try done; try (by eexists); by destruct HH.
  - intros Hnone Hnew. exists row. rewrite Hlk.
    unfold step_at, defined. rewrite Hnone, Hfind.
    apply elem_of_newIds in Hnew. rewrite bool_decide_eq_true_2 by done.
    simpl. auto.
Qed.

(** C2. After [onSelectionChange], an identifier of the current page is a
    key of the selection map exactly when it occurs in the event's new
    selection; an identifier that was not a key before and is one now maps
    to the row of the current page with that identifier (the one
    [items.find] returns). *)
Theorem onSelectionChange_page_ids value st k :
  In k (List.map id (items st)) ->
  (k ∈ dom (selectedMap (onSelectionChange value st))
     <-> In k (List.map id (default [] value))) /\
  (selectedMap st !! k = None -> In k (List.map id (default [] value)) ->
     exists row,
       selectedMap (onSelectionChange value st) !! k = Some row
       /\ List.find (fun it => id it =? k) (items st) = Some row
       /\ In row (items st) /\ id row = k).
Proof. apply onSelectionChange_map_page_ids. Qed.

(** *** The loops of the page-wide buttons *)

Lemma select_all_lookup items next k :
  ~ In k (List.map id items) ->
  onSelectAllPage_map items next !! k = next !! k.
Proof.
  unfold onSelectAllPage_map. revert next.
  induction items as [|row items IH]; intros next Hk; simpl in *; [done|].
  rewrite IH by tauto. apply lookup_insert_ne. tauto.
Qed.

Lemma deselect_all_lookup items next k :
  ~ In k (List.map id items) ->
  onDeselectAllPage_map items next !! k = next !! k.
Proof.
  unfold onDeselectAllPage_map. revert next.
  induction items as [|row items IH]; intros next Hk; simpl in *; [done|].
  rewrite IH by tauto. apply lookup_delete_ne. tauto.
Qed.

(** C3. The three page-scoped operations leave every entry of the
    selection map whose identifier is not an identifier of a row of the
    current page as it was: present with the same record, or absent. *)
Theorem page_operations_frame value st k :
  ~ In k (List.map id (items st)) ->
  selectedMap (onSelectionChange value st) !! k = selectedMap st !! k /\
  selectedMap (onSelectAllPage st) !! k = selectedMap st !! k /\
  selectedMap (onDeselectAllPage st) !! k = selectedMap st !! k.
Proof.
  intros Hk. split; [|split]; simpl.
  - unfold onSelectionChange_map. rewrite selection_loop_lookup.
    destruct (decide _) as [Hin|]; [|done]. by rewrite list_elem_of_In in Hin.
  - by apply select_all_lookup.
  - by apply deselect_all_lookup.
Qed.

(** *** The invariant: a record is stored under its own identifier *)

Lemma keyed_insert m a : keyed_by_id m -> keyed_by_id (<[id a := a]> m).
Proof.
  intros Hm k b. rewrite lookup_insert.
  destruct (decide (id a = k)); [congruence|apply Hm].
Qed.

Lemma keyed_delete m i : keyed_by_id m -> keyed_by_id (delete i m).
Proof.
  intros Hm k b. rewrite lookup_delete.
  destruct (decide (i = k)); [done|apply Hm].
Qed.

Lemma keyed_selection_step items newIds prev next i :
  keyed_by_id next -> keyed_by_id (selection_step items newIds prev next i).
Proof.
  intros Hn. unfold selection_step.
  destruct (bool_decide (i ∈ newIds) && negb (defined prev i)).
  - destruct (List.find _ items) as [row|] eqn:E; [|done].
    apply find_some in E as [_ <-%Z.eqb_eq]. by apply keyed_insert.
  - destruct (negb (bool_decide (i ∈ newIds)) && defined prev i);
      [by apply keyed_delete|done].
Qed.

Lemma keyed_fold {A} (f : SelectionMap -> A -> SelectionMap) (l : list A) m :
  (forall next x, keyed_by_id next -> keyed_by_id (f next x)) ->
  keyed_by_id m -> keyed_by_id (fold_left f l m).
Proof.
  intros Hf. revert m. induction l as [|x l IH]; intros m Hm; simpl; auto.
Qed.

(** C9. Every operation on the selection map that the interface can
    trigger keeps each record stored under its own identifier. *)
Theorem selection_operations_keep_keys value row checked i st :
  keyed_by_id (selectedMap st) ->
  keyed_by_id (selectedMap (onSelectionChange value st)) /\
  keyed_by_id (selectedMap (onSelectAllPage st)) /\
  keyed_by_id (selectedMap (onDeselectAllPage st)) /\
  keyed_by_id (selectedMap (removeFromSelection i st)) /\
  keyed_by_id (selectedMap (toggleRow row checked st)).
Proof.
  intros Hp. repeat split; simpl.
  - apply keyed_fold; [|done]. intros. by apply keyed_selection_step.
  - apply keyed_fold; [|done]. intros. by apply keyed_insert.
  - apply keyed_fold; [|done]. intros. by apply keyed_delete.
  - by apply keyed_delete.
  - unfold toggleRow_map. destruct checked;
      [by apply keyed_insert|by apply keyed_delete].
Qed.

End Selection.

(** ** The fetch adapter *)

Section Adapter.

Import Api.

Implicit Types (fetch : string -> exn + Response) (page limit : option Z).
Implicit Types (res : Response) (body : ArtworkApiResponse).

Lemma nullish_null_replaced (raw : option json) :
  nullish raw JNull = null_replaced raw.
Proof. by destruct raw as [[]|]. Qed.

Lemma normalize_normalized (d : RawArtwork) : normalized d (normalize d).
Proof.
  unfold normalized, normalize; simpl.
  by rewrite !nullish_null_replaced.
Qed.

Lemma records_map_records elements (l : list RawArtwork) :
  records elements = Some l ->
  map_records elements = Some (List.map normalize l).
Proof.
  revert l. induction elements as [|[d|] elements IH]; intros l; simpl.
  - by intros [= <-].
  - destruct (records elements) as [l'|]; [|done]. intros [= <-].
    by rewrite (IH l' eq_refl).
  - done.
Qed.

Lemma records_None elements : records elements = None <-> In None elements.
Proof.
  induction elements as [|[d|] elements IH]; simpl.
  - split; [done|tauto].
  - destruct (records elements); simpl.
    + split; [done|]. intros [?|H]; [done|]. by apply IH in H.
    + split; [|done]. intros _. right. by apply IH.
  - split; [by left|done].
Qed.

(** A document is of the declared type unless it is [null], holds a
    truthy value that is no array under [data], or a [null] element in
    [data]. *)
Lemma res_json_None res (doc : Document) :
  document res = Some doc ->
  (res_json res = None <->
   doc = NullDocument \/ (exists p, doc = Fields NoArray p)
   \/ exists elements p, doc = Fields (DataArray elements) p
                         /\ In None elements).
Proof.
  intros Hdoc. unfold res_json. rewrite Hdoc.
  destruct doc as [|[|elements|] p].
  - split; [by left|done].
  - split; [done|]. intros [?|[[? ?]|(? & ? & ? & ?)]]; done.
  - destruct (records elements) as [l|] eqn:E; simpl.
    + split; [done|]. intros [?|[[? ?]|(els & p' & [= <- <-] & Hin)]];
        try done. apply records_None in Hin. congruence.
    + split; [|done]. intros _. right. right. exists elements, p.
      split; [done|]. by apply records_None.
  - split; [|done]. intros _. right. left. by exists p.
Qed.

Lemma res_json_Some res body :
  res_json res = Some body ->
  exists d, document res = Some (Fields d (pagination body))
            /\ map_data d
                = Some (List.map normalize (default [] (data body))).
Proof.
  unfold res_json. destruct (document res) as [[|[|elements|] p]|]; try done.
  - intros [= <-]. by exists NoData.
  - destruct (records elements) as [l|] eqn:E; [|done]. intros [= <-].
    exists (DataArray elements). split; [done|]. simpl.
    by apply records_map_records.
Qed.

Lemma fetch_ok_json fetch page limit res body :
  fetch (url (default 1 page) (default 10 limit)) = inr res ->
  ok res = true -> res_json res = Some body ->
  fetchArtworksPage fetch page limit
  = inr {| Api.items := List.map normalize (default [] (data body));
           total := default 0 (pagination body ≫= pagination_total);
           per_page := default (default 10 limit)
                         (pagination body ≫= pagination_limit) |}.
Proof.
  intros Hf Hok Hj. unfold fetchArtworksPage. rewrite Hf, Hok. simpl.
  apply res_json_Some in Hj as (d & Hdoc & Hd). rewrite Hdoc, Hd. done.
Qed.

(** C5. Of a successful response (an ok response whose body is a JSON
    document of the response type) the adapter returns: one artwork per
    record of [data], in order, with the raw identifier and the six other
    raw values, [undefined] and [null] replaced by [null]; no items when
    [data] is missing; [pagination.total], or 0; [pagination.limit], or the
    requested limit. *)
Theorem fetchArtworksPage_normalizes fetch page limit res body :
  fetch (url (default 1 page) (default 10 limit)) = inr res ->
  ok res = true -> res_json res = Some body ->
  exists r,
    fetchArtworksPage fetch page limit = inr r /\
    Forall2 normalized (default [] (data body)) (Api.items r) /\
    (data body = None -> Api.items r = []) /\
    total r = match pagination body with
              | Some p => default 0 (pagination_total p)
              | None => 0
              end /\
    per_page r = match pagination body with
                 | Some p => default (default 10 limit) (pagination_limit p)
                 | None => default 10 limit
                 end.
Proof.
  intros Hf Hok Hj. eexists. split; [by eapply fetch_ok_json|]. simpl.
  split; [|split; [|split]].
  - induction (default [] (data body)) as [|d l IH]; simpl;
      constructor; [apply normalize_normalized|done].
  - by intros ->.
  - by destruct (pagination body).
  - by destruct (pagination body).
Qed.

(** C10, as amended. Given a response, the adapter rejects with the
    error [Failed to fetch artworks] exactly when the response is not ok.
    Of an ok response it returns the normalized page when the body is a
    JSON document of the declared response type; it passes on the
    rejection of [res.json()] when the body is no JSON document; and it
    raises a [TypeError] when the document is [null], when its [data] is a
    truthy value that is no array, and when its [data] holds a [null]
    element. *)
Theorem fetchArtworksPage_outcomes fetch page limit res :
  fetch (url (default 1 page) (default 10 limit)) = inr res ->
  (fetchArtworksPage fetch page limit = inl (Error "Failed to fetch artworks")
     <-> ok res = false) /\
  (ok res = true -> forall body, res_json res = Some body ->
     fetchArtworksPage fetch page limit
     = inr {| Api.items := List.map normalize (default [] (data body));
              total := default 0 (pagination body ≫= pagination_total);
              per_page := default (default 10 limit)
                            (pagination body ≫= pagination_limit) |}) /\
  (ok res = true -> document res = None ->
     fetchArtworksPage fetch page limit = inl SyntaxError) /\
  (ok res = true -> forall doc, document res = Some doc ->
     (doc = NullDocument \/ (exists p, doc = Fields NoArray p)
      \/ exists elements p, doc = Fields (DataArray elements) p
                            /\ In None elements) ->
     fetchArtworksPage fetch page limit = inl TypeError).
Proof.
  intros Hf. split; [|split; [|split]].
  - unfold fetchArtworksPage. rewrite Hf.
    destruct (ok res); simpl; [|done].
    destruct (document res) as [[|d p]|]; [| |split; intros; discriminate].
    + split; intros; discriminate.
    + destruct (map_data d); split; intros; discriminate.
  - intros Hok body Hj. by eapply fetch_ok_json.
  - intros Hok Hj. unfold fetchArtworksPage. by rewrite Hf, Hok, Hj.
  - intros Hok doc Hdoc Hshape. unfold fetchArtworksPage.
    rewrite Hf, Hok, Hdoc. simpl.
    destruct Hshape as [->|[[p ->]|(elements & p & -> & Hin)]]; try done.
    simpl. apply records_None in Hin.
    assert (Hm : map_records elements = None).
    { clear -Hin. induction elements as [|[d|] elements IH]; simpl in *;
        try done. destruct (records elements); [done|]. by rewrite IH. }
    by rewrite Hm.
Qed.

(** C10 as stated fails: an ok response makes the adapter reject when its
    body is no JSON document, and also when its body is the JSON document
    with a [null] element in [data]. *)
Lemma fetchArtworksPage_ok_may_reject :
  ~ (forall fetch page limit res,
       fetch (url (default 1 page) (default 10 limit)) = inr res ->
       ok res = true ->
       exists r, fetchArtworksPage fetch page limit = inr r) /\
  ~ (forall fetch page limit res,
       fetch (url (default 1 page) (default 10 limit)) = inr res ->
       ok res = true -> document res <> None ->
       exists r, fetchArtworksPage fetch page limit = inr r).
Proof.
  split; intros H.
  - destruct (H (fun _ => inr not_json_response) (Some 1) (Some 10)
                not_json_response eq_refl eq_refl) as [r Hr].
    discriminate Hr.
  - destruct (H (fun _ => inr null_record_response) (Some 1) (Some 10)
                null_record_response eq_refl eq_refl ltac:(done)) as [r Hr].
    discriminate Hr.
Qed.

End Adapter.

(** ** The fetch effect *)

Section FetchEffect.

Implicit Types (st : AppState) (e : FetchEffect) (n : nat).
Implicit Types (net : exn + Api.Response) (err : exn) (r : Api.Page).

Lemma settle_unfold n net st e :
  effects st !! n = Some e -> settled e = false ->
  settle n net st
  = finally_handler e
      (match outcome e net with
       | inr r =>
           then_handler e r
             (set_effects (alter settle_run n (effects st)) st)
       | inl err =>
           catch_handler err
             (set_effects (alter settle_run n (effects st)) st)
       end).
Proof. intros He Hs. unfold settle, outcome. by rewrite He, Hs. Qed.

(** C6, as amended. When the fetch of a run that is still mounted
    fails, the error handler logs the error to the console and resets the
    displayed items to the empty list, the total to 0 and the page
    selection to [null], and the loading flag is cleared; the page, the
    rows per page, the selection map, the side panel and the storage stay
    as they are, and no request is started again. *)
Theorem failed_fetch_logs_and_resets n net st e err :
  effects st !! n = Some e -> settled e = false -> mounted e = true ->
  outcome e net = inl err ->
  console (settle n net st) = (console st ++ [err])%list /\
  items (settle n net st) = [] /\
  totalRecords (settle n net st) = 0 /\
  pageSelection (settle n net st) = None /\
  loading (settle n net st) = false /\
  page (settle n net st) = page st /\
  rowsPerPage (settle n net st) = rowsPerPage st /\
  selectedMap (settle n net st) = selectedMap st /\
  visibleSidebar (settle n net st) = visibleSidebar st /\
  localStorage (settle n net st) = localStorage st /\
  length (effects (settle n net st)) = length (effects st).
Proof.
  intros He Hs Hm Ho. rewrite (settle_unfold _ _ _ _ He Hs), Ho.
  unfold finally_handler, catch_handler. rewrite Hm. simpl.
  rewrite length_alter. repeat split.
Qed.

(** The page of a run that is still mounted is displayed, and the rows
    of it that the run's selection map holds are the page selection. *)
Lemma fetched_page_is_displayed n net st e r :
  effects st !! n = Some e -> settled e = false -> mounted e = true ->
  outcome e net = inr r ->
  items (settle n net st) = Api.items r /\
  totalRecords (settle n net st) = Api.total r /\
  pageSelection (settle n net st)
    = fetched_pageSelection (Api.items r) (eff_selectedMap e) /\
  loading (settle n net st) = false.
Proof.
  intros He Hs Hm Ho. rewrite (settle_unfold _ _ _ _ He Hs), Ho.
  unfold finally_handler, then_handler. by rewrite Hm.
Qed.

(** A run whose promise fulfils after its cleanup changes nothing that is
    displayed. *)
Lemma stale_page_is_discarded n net st e r :
  effects st !! n = Some e -> mounted e = false ->
  outcome e net = inr r ->
  items (settle n net st) = items st /\
  totalRecords (settle n net st) = totalRecords st /\
  pageSelection (settle n net st) = pageSelection st /\
  loading (settle n net st) = loading st.
Proof.
  intros He Hm Ho. unfold settle. rewrite He.
  destruct (settled e); [done|]. fold (outcome e net). rewrite Ho.
  unfold finally_handler, then_handler. by rewrite Hm.
Qed.

(** After the fetch effect ran again, its earlier runs are unmounted. *)
Lemma rerun_unmounts_previous st n e :
  (forall k e', effects st !! k = Some e' ->
     (S k < length (effects st))%nat ->
     mounted e' = false) ->
  effects (rerun_fetch_effect st) !! n = Some e ->
  (S n < length (effects (rerun_fetch_effect st)))%nat ->
  mounted e = false.
Proof.
  intros Hinv. unfold rerun_fetch_effect, fetch_effect, cleanup. simpl.
  rewrite length_app, length_alter. simpl. intros Hl Hn.
  rewrite lookup_app_l in Hl by (rewrite length_alter; lia).
  rewrite list_lookup_alter in Hl.
  destruct (decide (pred (length (effects st)) = n)) as [<-|Hne].
  - destruct (effects st !! pred (length (effects st))) as [e0|];
      simpl in Hl; [|done].
    by injection Hl as <-.
  - eapply Hinv; [done|lia].
Qed.

End FetchEffect.

(** *** A stale fetch that fails *)

(** C7. The code departs from the claim: the request for page 1, stale
    since the cleanup of its run, is answered with a server error, and the
    displayed items, the total and the loaded page are wiped although run
    0 is unmounted and run 1 is the latest. *)
Theorem stale_failed_fetch_clears_page :
  (mounted <$> effects page_two_displayed !! 0%nat) = Some false /\
  (mounted <$> effects page_two_displayed !! 1%nat) = Some true /\
  page page_two_displayed = 2 /\
  items page_two_displayed = [sample_artwork] /\
  totalRecords page_two_displayed = 120000 /\
  items (settle 0 (inr server_error) page_two_displayed) = [] /\
  totalRecords (settle 0 (inr server_error) page_two_displayed) = 0 /\
  pageSelection (settle 0 (inr server_error) page_two_displayed) = None.
Proof. repeat split. Qed.

(** C6 as stated fails: when the request of the latest, mounted run
    fails, the error handler does more than log; the page that was
    displayed is gone. *)
Lemma catch_handler_not_only_log :
  ~ (forall n net st e err,
       effects st !! n = Some e -> settled e = false -> mounted e = true ->
       outcome e net = inl err ->
       items (settle n net st) = items st /\
       totalRecords (settle n net st) = totalRecords st /\
       pageSelection (settle n net st) = pageSelection st).
Proof.
  intros H.
  destruct (H 2%nat (inr server_error) page_three_requested
              {| eff_page := 3; eff_rowsPerPage := 10; eff_selectedMap := ∅;
                 mounted := true; settled := false |}
              (Error "Failed to fetch artworks")
              eq_refl eq_refl eq_refl eq_refl) as (Hi & _).
  discriminate Hi.
Qed.

(** ** The side panel *)

Section SidePanel.

Implicit Types (st : AppState) (m : SelectionMap).

Lemma Object_entries_Permutation m : Object_entries m ≡ₚ map_to_list m.
Proof. apply merge_sort_Permutation. Qed.

Lemma elem_of_Object_entries m k a :
  (k, a) ∈ Object_entries m <-> m !! k = Some a.
Proof. rewrite Object_entries_Permutation. apply elem_of_map_to_list. Qed.

Lemma Object_keys_NoDup m : NoDup (Object_keys m).
Proof.
  unfold Object_keys. rewrite Object_entries_Permutation.
  apply NoDup_fst_map_to_list.
Qed.

Lemma Object_entries_to_map m : list_to_map (Object_entries m) = m.
Proof.
  rewrite <- (list_to_map_to_list m) at 2.
  apply list_to_map_proper; [apply Object_keys_NoDup|].
  apply Object_entries_Permutation.
Qed.

#[local] Instance key_le_transitive : Transitive key_le.
Proof. intros x y z. unfold key_le. lia. Qed.

#[local] Instance key_le_total : Total key_le.
Proof. intros x y. unfold key_le. lia. Qed.



Lemma Object_values_length m : length (Object_values m) = size m.
Proof.
  unfold Object_values.
  by rewrite length_fmap, Object_entries_Permutation, length_map_to_list.
Qed.

Lemma Object_keys_dom m k : In k (Object_keys m) <-> k ∈ dom m.
Proof.
  unfold Object_keys. rewrite <- list_elem_of_In, elem_of_dom, list_elem_of_fmap.
  split.
  - intros ([k' a] & -> & H%elem_of_Object_entries). by exists a.
  - intros [a H]. exists (k, a). by rewrite elem_of_Object_entries.
Qed.

Lemma Object_values_lookup m a :
  In a (Object_values m) <-> exists k, m !! k = Some a.
Proof.
  unfold Object_values. rewrite <- list_elem_of_In, list_elem_of_fmap. split.
  - intros ([k a'] & -> & H%elem_of_Object_entries). by exists k.
  - intros [k H]. exists (k, a). by rewrite elem_of_Object_entries.
Qed.

(** The entries of the map, key by key and value by value. *)
Lemma Object_keys_values m :
  Forall2 (fun k a => m !! k = Some a) (Object_keys m) (Object_values m).
Proof.
  unfold Object_keys, Object_values.
  assert (H : Forall (fun kv => m !! kv.1 = Some kv.2) (Object_entries m)).
  { apply Forall_forall. intros [k a] Hin. by apply elem_of_Object_entries. }
  induction H as [|kv l Hkv Hl IH]; simpl; constructor; done.
Qed.



End SidePanel.

(** ** JSON text: reading what was written *)

Section JSONText.

Implicit Types (s t rest : string) (c : ascii) (u : Decimal.uint).

Lemma append_nil rest : EmptyString +:+ rest = rest.
Proof. reflexivity. Qed.

Lemma append_cons c s rest : String c s +:+ rest = String c (s +:+ rest).
Proof. reflexivity. Qed.

Lemma append_assoc s t rest : (s +:+ t) +:+ rest = s +:+ (t +:+ rest).
Proof.
  induction s as [|c s IH]; [done|]. by rewrite !append_cons, IH.
Qed.

Lemma length_append s t :
  String.length (s +:+ t) = (String.length s + String.length t)%nat.
Proof.
  induction s as [|c s IH]; [done|]. rewrite append_cons. simpl. by rewrite IH.
Qed.

(** *** Numbers *)

Lemma read_uint_no_digit rest :
  no_digit_ahead rest -> read_uint rest = (Decimal.Nil, rest).
Proof. destruct rest as [|c r]; simpl; [done|]. by intros ->. Qed.

Lemma read_uint_written u rest :
  no_digit_ahead rest ->
  read_uint (NilEmpty.string_of_uint u +:+ rest) = (u, rest).
Proof.
  intros Hr.
  induction u as [|u IH|u IH|u IH|u IH|u IH|u IH|u IH|u IH|u IH|u IH];
    simpl; rewrite ?append_cons, ?append_nil;
    [by apply read_uint_no_digit|..];
    simpl; by rewrite IH.
Qed.

Lemma to_uint_normal (n : N) :
  Decimal.uint_beq (Decimal.unorm (N.to_uint n)) (N.to_uint n) = true.
Proof.
  apply Decimal.internal_uint_dec_lb.
  pose proof (Unsigned.to_of (N.to_uint n)) as H.
  by rewrite Unsigned.of_to in H.
Qed.

Lemma delimited_cases rest :
  delimited rest = true ->
  rest = EmptyString \/
  exists c r, rest = String c r /\
    (c = ","%char \/ c = "]"%char \/ c = "}"%char).
Proof.
  destruct rest as [|c r]; simpl; [by left|]. intros H. right. exists c, r.
  split; [done|].
  apply orb_prop in H as [H|H]; [apply orb_prop in H as [H|H]|];
    apply Ascii.eqb_eq in H; auto.
Qed.

Lemma delimited_no_digit rest : delimited rest = true -> no_digit_ahead rest.
Proof.
  intros [->|(c & r & -> & [->|[->| ->]])]%delimited_cases; done.
Qed.

Lemma delimited_ends_number rest :
  delimited rest = true -> continues_number rest = false.
Proof.
  intros [->|(c & r & -> & [->|[->| ->]])]%delimited_cases; done.
Qed.

Lemma delimited_no_ws rest : delimited rest = true -> skip_ws rest = rest.
Proof.
  intros [->|(c & r & -> & [->|[->| ->]])]%delimited_cases; done.
Qed.

Lemma read_nat_written (n : N) rest :
  delimited rest = true ->
  read_nat (string_of_N n +:+ rest) = Some (n, rest).
Proof.
  intros Hr. unfold read_nat, string_of_N.
  rewrite read_uint_written by by apply delimited_no_digit.
  by rewrite to_uint_normal, delimited_ends_number, Unsigned.of_to.
Qed.

(** A written natural number starts with a digit. *)
Lemma string_of_N_head (n : N) :
  exists c s, string_of_N n = String c s /\ is_digit c = true
              /\ (c =? "-")%char = false.
Proof.
  unfold string_of_N.
  pose proof (to_uint_normal n) as H.
  destruct (N.to_uint n); [discriminate H|..]; simpl; eauto.
Qed.

Lemma read_number_written (z : Z) rest :
  delimited rest = true ->
  read_number (string_of_Z z +:+ rest) = Some (z, rest).
Proof.
  intros Hr. destruct z as [|p|p]; simpl.
  - change (string_of_N 0) with "0". rewrite append_cons, append_nil.
    unfold read_number. change ("0" =? "-")%char with false. cbv iota.
    change (String "0" rest) with (string_of_N 0 +:+ rest).
    by rewrite read_nat_written.
  - destruct (string_of_N_head (N.pos p)) as (c & s & Hs & _ & Hc).
    pose proof (read_nat_written (N.pos p) rest Hr) as Hn.
    rewrite Hs in *. rewrite append_cons in *. unfold read_number.
    by rewrite Hc, Hn.
  - by rewrite read_nat_written.
Qed.

(** A written number starts with a digit or the minus sign, no white
    space. *)
Lemma string_of_Z_head (z : Z) :
  exists c s, string_of_Z z = String c s
              /\ ((c =? "-")%char || is_digit c) = true
              /\ is_ws c = false.
Proof.
  assert (Hd : forall c, is_digit c = true -> is_ws c = false).
  { intros c. unfold is_digit, is_ws.
    destruct (N_of_ascii c) as [|p]; [done|].
    intros [H1 H2]%andb_prop. apply N.leb_le in H1, H2.
    repeat (apply orb_false_intro); apply N.eqb_neq; lia. }
  destruct z as [|p|p]; simpl.
  - exists "0"%char, EmptyString. done.
  - destruct (string_of_N_head (N.pos p)) as (c & s & Hs & Hc & Hm).
    exists c, s. rewrite Hc, orb_true_r. auto.
  - by eexists _, _.
Qed.

(** *** Strings *)

Lemma read_string_char c t :
  read_string (quote_char c +:+ t) = cons_string c (read_string t).
Proof.
  destruct c as [[] [] [] [] [] [] [] []]; reflexivity.
Qed.

Lemma read_string_written s rest :
  read_string (quote_body s +:+ String dquote rest) = Some (s, rest).
Proof.
  induction s as [|c s IH]; [done|].
  change (quote_body (String c s)) with (quote_char c +:+ quote_body s).
  by rewrite append_assoc, read_string_char, IH.
Qed.

Lemma quote_unfold s rest :
  quote s +:+ rest = String dquote (quote_body s +:+ String dquote rest).
Proof.
  unfold quote. by rewrite append_cons, append_assoc, append_cons, append_nil.
Qed.

(** *** Values *)

Lemma json_ind (P : json -> Prop) :
  P JNull -> (forall b, P (JBool b)) -> (forall z, P (JNum z)) ->
  (forall s, P (JStr s)) ->
  (forall vs, Forall P vs -> P (JArr vs)) ->
  (forall ms, Forall (fun kv => P kv.2) ms -> P (JObj ms)) ->
  forall v, P v.
Proof.
  intros Hnull Hbool Hnum Hstr Harr Hobj.
  fix IH 1. intros v. destruct v as [|b|z|s|vs|ms].
  - exact Hnull.
  - apply Hbool.
  - apply Hnum.
  - apply Hstr.
  - apply Harr. induction vs as [|x vs IHvs]; constructor;
      [apply IH|exact IHvs].
  - apply Hobj. induction ms as [|[k x] ms IHms]; constructor;
      [apply IH|exact IHms].
Qed.

Lemma stringify_array vs :
  JSON_stringify (JArr vs) = String "[" (elements_text vs +:+ "]").
Proof. reflexivity. Qed.

Lemma stringify_object ms :
  JSON_stringify (JObj ms) = String "{" (members_text ms +:+ "}").
Proof. reflexivity. Qed.

Lemma elements_text_cons x vs :
  elements_text (x :: vs)
  = JSON_stringify x +:+
    match vs with
    | [] => EmptyString
    | _ :: _ => String "," (elements_text vs)
    end.
Proof. reflexivity. Qed.

Lemma members_text_cons k x ms :
  members_text ((k, x) :: ms)
  = quote k +:+ String ":" (JSON_stringify x) +:+
    match ms with
    | [] => EmptyString
    | _ :: _ => String "," (members_text ms)
    end.
Proof. reflexivity. Qed.

Lemma json_size_array vs : json_size (JArr vs) = S (elements_size vs).
Proof. reflexivity. Qed.

Lemma json_size_object ms : json_size (JObj ms) = S (members_size ms).
Proof. reflexivity. Qed.

(** The first character of a written value is no white space and no
    closing bracket. *)
Lemma stringify_head v :
  exists c s, JSON_stringify v = String c s /\ is_ws c = false
              /\ (c =? "]")%char = false /\ (c =? "}")%char = false.
Proof.
  destruct v as [|[]|z|s|vs|ms]; try (by eexists _, _).
  destruct (string_of_Z_head z) as (c & s & Hs & Hc & Hw).
  exists c, s. simpl. repeat split; try done.
  - destruct (Ascii.eqb_spec c "]"); [by subst c|done].
  - destruct (Ascii.eqb_spec c "}"); [by subst c|done].
Qed.

Lemma skip_ws_stringify v rest :
  skip_ws (JSON_stringify v +:+ rest) = JSON_stringify v +:+ rest.
Proof.
  destruct (stringify_head v) as (c & s & -> & Hw & _).
  rewrite append_cons. simpl. by rewrite Hw.
Qed.

Lemma skip_ws_quote k rest : skip_ws (quote k +:+ rest) = quote k +:+ rest.
Proof. by rewrite quote_unfold. Qed.

Lemma read_elements_written vs :
  Forall reads_back vs -> vs <> [] ->
  forall fuel rest,
    (elements_size vs <= fuel)%nat ->
    read_elements fuel (elements_text vs +:+ String "]" rest)
    = Some (vs, rest).
Proof.
  induction 1 as [|x vs Hx Hvs IH]; [done|]. intros _ fuel rest Hfuel.
  simpl in Hfuel. destruct fuel as [|fuel]; [lia|].
  rewrite elements_text_cons, append_assoc. simpl.
  destruct vs as [|y vs].
  - rewrite append_nil, Hx by (done || lia). done.
  - rewrite append_cons, Hx by (done || lia). simpl.
    rewrite IH by (done || lia). done.
Qed.

Lemma read_members_written ms :
  Forall (fun kv => reads_back kv.2) ms -> ms <> [] ->
  forall fuel rest,
    (members_size ms <= fuel)%nat ->
    read_members fuel (members_text ms +:+ String "}" rest)
    = Some (ms, rest).
Proof.
  induction 1 as [|[k x] ms Hx Hms IH]; [done|]. intros _ fuel rest Hfuel.
  simpl in Hfuel, Hx. destruct fuel as [|fuel]; [lia|].
  rewrite members_text_cons, !append_assoc, quote_unfold. simpl.
  rewrite read_string_written, append_cons. simpl.
  destruct ms as [|y ms].
  - rewrite append_nil, Hx by (done || lia). done.
  - rewrite append_cons, Hx by (done || lia). simpl.
    rewrite IH by (done || lia). done.
Qed.

(** Reading the text of a value gives the value and what stood behind
    it. *)
Lemma read_value_written v : reads_back v.
Proof.
  induction v as [|b|z|s|vs IH|ms IH] using json_ind;
    intros fuel rest Hfuel Hrest;
    (destruct fuel as [|fuel]; [simpl in Hfuel; lia|]).
  - reflexivity.
  - by destruct b.
  - destruct (string_of_Z_head z) as (c & s & Hs & Hc & Hw).
    pose proof (read_number_written z rest Hrest) as Hn.
    simpl JSON_stringify in *. rewrite Hs in *. rewrite append_cons in *.
    simpl. unfold read_number in Hn. by rewrite Hw, Hc, Hn.
  - simpl JSON_stringify. rewrite quote_unfold. simpl.
    by rewrite read_string_written.
  - rewrite stringify_array, append_cons, append_assoc, append_cons, append_nil.
    rewrite json_size_array in Hfuel.
    destruct vs as [|x vs]; [reflexivity|].
    destruct (stringify_head x) as (c & s & Hs & Hw & Hb & _).
    pose proof (read_elements_written (x :: vs) IH ltac:(done) fuel rest
                  ltac:(lia)) as Hr.
    rewrite elements_text_cons in *. rewrite Hs in *. rewrite !append_cons in *. simpl.
    by rewrite Hw, Hb, Hr.
  - rewrite stringify_object, append_cons, append_assoc, append_cons,
      append_nil.
    rewrite json_size_object in Hfuel.
    destruct ms as [|[k x] ms]; [reflexivity|].
    pose proof (read_members_written ((k, x) :: ms) IH ltac:(done) fuel rest
                  ltac:(lia)) as Hr.
    rewrite members_text_cons in *. rewrite !append_assoc in *. rewrite quote_unfold in *. simpl.
    by rewrite Hr.
Qed.

(** The length of the text of a value is fuel enough to read it. *)
Lemma json_size_length v :
  (json_size v <= String.length (JSON_stringify v))%nat.
Proof.
  induction v as [|b|z|s|vs IH|ms IH] using json_ind.
  - simpl. lia.
  - destruct b; simpl; lia.
  - destruct (string_of_Z_head z) as (c & s & Hs & _).
    simpl. rewrite Hs. simpl. lia.
  - simpl. lia.
  - rewrite stringify_array, json_size_array. simpl.
    rewrite length_append. simpl.
    assert (elements_size vs <= S (String.length (elements_text vs)))%nat;
      [|lia].
    induction IH as [|x vs Hx _ IHvs]; [simpl; lia|].
    rewrite elements_text_cons, length_append. destruct vs; simpl in *; lia.
  - rewrite stringify_object, json_size_object. simpl.
    rewrite length_append. simpl.
    assert (members_size ms <= S (String.length (members_text ms)))%nat;
      [|lia].
    induction IH as [|[k x] ms Hx _ IHms]; [simpl; lia|].
    rewrite members_text_cons, !length_append.
    destruct ms; simpl in *; lia.
Qed.

Lemma append_empty s : s +:+ EmptyString = s.
Proof. induction s as [|c s IH]; [done|]. by rewrite append_cons, IH. Qed.

(** [JSON.parse(JSON.stringify(v))] is [v]. *)
Lemma JSON_parse_stringify v : JSON_parse (JSON_stringify v) = Some v.
Proof.
  unfold JSON_parse.
  pose proof (read_value_written v (S (String.length (JSON_stringify v)))
                EmptyString) as H.
  rewrite append_empty in H. rewrite H; [done| |done].
  pose proof (json_size_length v). lia.
Qed.

End JSONText.

(** ** Persistence of the selection *)

Section Persistence.

Implicit Types (m : SelectionMap) (a : Artwork) (k : Z) (st : AppState).

Lemma as_Artwork_js a : as_Artwork (js_of_Artwork a) = Some a.
Proof. by destruct a. Qed.

Lemma key_of_string_written k : key_of_string (string_of_Z k) = Some k.
Proof.
  unfold key_of_string.
  pose proof (read_number_written k EmptyString eq_refl) as H.
  rewrite append_empty in H. rewrite H.
  by rewrite (proj2 (String.eqb_eq _ _) eq_refl).
Qed.

Lemma add_entry_written m k a :
  add_entry (Some m) (string_of_Z k, js_of_Artwork a) = Some (<[k := a]> m).
Proof.
  unfold add_entry. cbn [fst snd mbind option_bind].
  by rewrite key_of_string_written, as_Artwork_js.
Qed.

Lemma add_entries_written (l : list (Z * Artwork)) m :
  fold_left add_entry
    (List.map (fun kv => (string_of_Z kv.1, js_of_Artwork kv.2)) l) (Some m)
  = Some (fold_left (fun acc kv => <[kv.1 := kv.2]> acc) l m).
Proof.
  revert m. induction l as [|[k a] l IH]; intros m; [done|].
  cbn [List.map fold_left fst snd]. rewrite add_entry_written. apply IH.
Qed.

Lemma fold_insert_lookup (l : list (Z * Artwork)) m k :
  NoDup l.*1 ->
  fold_left (fun acc kv => <[kv.1 := kv.2]> acc) l m !! k
  = match (list_to_map l : SelectionMap) !! k with
    | Some a => Some a
    | None => m !! k
    end.
Proof.
  revert m. induction l as [|[k' a] l IH]; intros m Hnd.
  - simpl. by rewrite lookup_empty.
  - rewrite fmap_cons in Hnd. apply NoDup_cons in Hnd as [Hk' Hnd].
    cbn [fold_left list_to_map foldr fst snd uncurry]. rewrite IH by done.
    destruct (decide (k' = k)) as [->|Hne].
    + rewrite lookup_insert_eq.
      rewrite (not_elem_of_list_to_map_1 l k Hk').
      by rewrite lookup_insert_eq.
    + rewrite !lookup_insert_ne by done. done.
Qed.

(** The cast reads the selection map back from the object it is. *)
Lemma as_SelectionMap_js m : as_SelectionMap (js_of_SelectionMap m) = Some m.
Proof.
  unfold as_SelectionMap, js_of_SelectionMap.
  rewrite add_entries_written. f_equal. apply map_eq. intros k.
  rewrite fold_insert_lookup by apply Object_keys_NoDup.
  rewrite Object_entries_to_map, lookup_empty. by destruct (m !! k).
Qed.

Lemma stringify_map_nonempty m :
  String.eqb (JSON_stringify (js_of_SelectionMap m)) "" = false.
Proof. unfold js_of_SelectionMap. by rewrite stringify_object. Qed.

Lemma load_effect_stored st raw v m :
  localStorage st !! STORAGE_KEY = Some raw ->
  String.eqb raw "" = false ->
  JSON_parse raw = Some v -> as_SelectionMap v = Some m ->
  load_effect st = Some (setSelectedMap (fun _ => m) st).
Proof.
  intros Hraw Hne Hv Hm. unfold load_effect. by rewrite Hraw, Hne, Hv, Hm.
Qed.

Lemma persist_effect_stored st :
  localStorage (persist_effect st) !! STORAGE_KEY
  = Some (JSON_stringify (js_of_SelectionMap (selectedMap st))).
Proof. unfold persist_effect, setItem. apply lookup_insert_eq. Qed.

(** The load effect alone, run on the storage the persist effect wrote,
    reads the selection back. *)
Lemma load_after_persist st :
  load_effect (initial_state (localStorage (persist_effect st)))
  = Some (setSelectedMap (fun _ => selectedMap st)
            (initial_state (localStorage (persist_effect st)))).
Proof.
  eapply load_effect_stored.
  - apply persist_effect_stored.
  - apply stringify_map_nonempty.
  - apply JSON_parse_stringify.
  - apply as_SelectionMap_js.
Qed.

(** *** The mount of the component *)

Lemma load_sets_stored st raw v :
  localStorage st !! STORAGE_KEY = Some raw ->
  String.eqb raw "" = false -> JSON_parse raw = Some v ->
  load_sets st = true.
Proof. intros Hraw Hne Hv. unfold load_sets. by rewrite Hraw, Hne, Hv. Qed.

Lemma mount_effects_stored rendered st m :
  localStorage st !! STORAGE_KEY
    = Some (JSON_stringify (js_of_SelectionMap m)) ->
  mount_effects rendered st
  = Some (fetch_effect_of rendered
            (persist_effect_of rendered (setSelectedMap (fun _ => m) st)))
  /\ load_sets st = true.
Proof.
  intros Hraw. split.
  - unfold mount_effects.
    rewrite (load_effect_stored st _ (js_of_SelectionMap m) m Hraw);
      [done|apply stringify_map_nonempty|apply JSON_parse_stringify
      |apply as_SelectionMap_js].
  - eapply load_sets_stored;
      [exact Hraw|apply stringify_map_nonempty|apply JSON_parse_stringify].
Qed.

Lemma stringify_empty_map : JSON_stringify (js_of_SelectionMap ∅) = "{}".
Proof.
  unfold js_of_SelectionMap, Object_entries. by rewrite map_to_list_empty.
Qed.

Lemma mounted_effects_storage rendered st :
  localStorage (fetch_effect_of rendered (persist_effect_of rendered st))
  = <[STORAGE_KEY :=
        JSON_stringify (js_of_SelectionMap (selectedMap rendered))]>
      (localStorage st).
Proof. reflexivity. Qed.

Lemma mounted_effects_selectedMap rendered st :
  selectedMap (fetch_effect_of rendered (persist_effect_of rendered st))
  = selectedMap st.
Proof. reflexivity. Qed.

(** A mount that runs each effect once: the stored selection is loaded,
    and the storage, over which the persist effect of the first render
    wrote the empty selection, holds it again after the second render. *)
Lemma mount_once_stored storage m :
  storage !! STORAGE_KEY = Some (JSON_stringify (js_of_SelectionMap m)) ->
  exists st',
    mount false storage = Some st' /\ selectedMap st' = m /\
    localStorage st' = storage.
Proof.
  intros Hraw. unfold mount.
  destruct (mount_effects_stored (initial_state storage)
              (initial_state storage) m Hraw) as [-> ->].
  cbn [mbind option_bind orb]. eexists. split; [reflexivity|].
  split; [reflexivity|].
  unfold rerun_fetch_effect, fetch_effect, cleanup, persist_effect, setItem.
  cbn [localStorage set_effects setLoading selectedMap fetch_effect_of
       persist_effect_of setItem setSelectedMap initial_state].
  rewrite !insert_insert_eq. by apply insert_id.
Qed.

(** The mount under StrictMode: the second run of the load effect reads
    the empty selection that the persist effect of the first render wrote,
    and the stored selection is gone from the state and from the
    storage. *)
Lemma mount_strict_stored storage m :
  storage !! STORAGE_KEY = Some (JSON_stringify (js_of_SelectionMap m)) ->
  exists st',
    mount true storage = Some st' /\ selectedMap st' = ∅ /\
    localStorage st' !! STORAGE_KEY = Some "{}".
Proof.
  intros Hraw. unfold mount.
  destruct (mount_effects_stored (initial_state storage)
              (initial_state storage) m Hraw) as [-> ->].
  cbn [mbind option_bind orb].
  match goal with
  | |- context [mount_effects ?r ?s] =>
      destruct (mount_effects_stored r s ∅) as [-> _]
  end.
  { unfold cleanup. cbn [localStorage set_effects].
    rewrite mounted_effects_storage. apply lookup_insert_eq. }
  cbn [mbind option_bind]. eexists. split; [reflexivity|].
  split; [reflexivity|].
  unfold rerun_fetch_effect, fetch_effect, cleanup, persist_effect, setItem.
  cbn [localStorage set_effects setLoading selectedMap fetch_effect_of
       persist_effect_of setItem setSelectedMap initial_state].
  rewrite lookup_insert_eq. by rewrite stringify_empty_map.
Qed.

(** C4. The code departs from the claim: mounted as the entry module
    mounts it, under StrictMode in a development build, the component
    does not restore the selection that the persist effect stored. The
    persist effect of the first render writes the empty selection over the
    stored one before the loaded selection is rendered, the second run of
    the load effect reads that, and the component ends with an empty
    selection map and the text of the empty object in the storage,
    whatever selection was stored. *)
Theorem strict_mount_loses_selection st :
  exists st',
    mount true (localStorage (persist_effect st)) = Some st' /\
    selectedMap st' = ∅ /\
    localStorage st' !! STORAGE_KEY = Some "{}".
Proof. eapply mount_strict_stored. apply persist_effect_stored. Qed.

End Persistence.

(** ** The theorems at work on a displayed page *)

(** The page of [page_two_displayed] holds one row, artwork 27992, and
    nothing is selected yet; the user ticks the row. *)
Lemma onSelectionChange_page_ids_witness :
  In 27992 (List.map id (items page_two_displayed)) /\
  ((27992 ∈ dom (selectedMap
                   (onSelectionChange (Some [sample_artwork])
                      page_two_displayed))
      <-> In 27992 (List.map id (default [] (Some [sample_artwork])))) /\
   (selectedMap page_two_displayed !! 27992 = None ->
    In 27992 (List.map id (default [] (Some [sample_artwork]))) ->
    exists row,
      selectedMap (onSelectionChange (Some [sample_artwork])
                     page_two_displayed) !! 27992 = Some row
      /\ List.find (fun it => id it =? 27992) (items page_two_displayed)
         = Some row
      /\ In row (items page_two_displayed) /\ id row = 27992)).
Proof.
  split; [left; reflexivity|].
  apply (onSelectionChange_page_ids (Some [sample_artwork])
           page_two_displayed 27992).
  left; reflexivity.
Defined.

(** Artwork 5 was selected on another page and is on no row of this
    page: its entry stays under each of the three operations. *)
Lemma page_operations_frame_witness :
  ~ In 5 (List.map id (items off_page_selected)) /\
  selectedMap off_page_selected !! 5 = Some other_page_artwork /\
  selectedMap (onSelectionChange (Some [sample_artwork]) off_page_selected)
    !! 5 = Some other_page_artwork /\
  selectedMap (onSelectAllPage off_page_selected) !! 5
    = Some other_page_artwork /\
  selectedMap (onDeselectAllPage off_page_selected) !! 5
    = Some other_page_artwork.
Proof.
  assert (H : ~ In 5 (List.map id (items off_page_selected))).
  { intros [H|[]]. discriminate H. }
  assert (H5 : selectedMap off_page_selected !! 5 = Some other_page_artwork)
    by reflexivity.
  destruct (page_operations_frame (Some [sample_artwork]) off_page_selected
              5 H) as (H1 & H2 & H3).
  rewrite H5 in H1, H2, H3. auto.
Defined.

(** The state after [Select all on page]: artwork 27992 is selected. *)
Lemma selection_operations_keep_keys_witness :
  keyed_by_id (selectedMap (onSelectAllPage page_two_displayed)) /\
  (keyed_by_id (selectedMap (onSelectionChange None
                               (onSelectAllPage page_two_displayed))) /\
   keyed_by_id (selectedMap (onSelectAllPage
                               (onSelectAllPage page_two_displayed))) /\
   keyed_by_id (selectedMap (onDeselectAllPage
                               (onSelectAllPage page_two_displayed))) /\
   keyed_by_id (selectedMap (removeFromSelection 27992
                               (onSelectAllPage page_two_displayed))) /\
   keyed_by_id (selectedMap (toggleRow sample_artwork true
                               (onSelectAllPage page_two_displayed)))).
Proof.
  assert (H : keyed_by_id (selectedMap (onSelectAllPage page_two_displayed))).
  { intros k a.
    change (selectedMap (onSelectAllPage page_two_displayed))
      with (<[27992 := sample_artwork]> (∅ : SelectionMap)).
    rewrite lookup_insert. destruct (decide (27992 = k)) as [<-|_].
    - intros [= <-]. reflexivity.
    - rewrite lookup_empty. discriminate. }
  split; [exact H|].
  exact (selection_operations_keep_keys None sample_artwork true 27992
           (onSelectAllPage page_two_displayed) H).
Defined.

Lemma fetchArtworksPage_normalizes_witness :
  exists r,
    Api.fetchArtworksPage (fun _ => inr sample_response) (Some 2) None = inr r
    /\ Api.items r = [sample_artwork] /\ Api.total r = 120000
    /\ Api.per_page r = 10.
Proof.
  destruct (fetchArtworksPage_normalizes (fun _ => inr sample_response)
              (Some 2) None sample_response
              {| Api.data := Some [sample_raw];
                 Api.pagination :=
                   Some {| Api.pagination_total := Some 120000;
                           Api.pagination_limit := Some 10;
                           Api.pagination_offset := Some 10;
                           Api.pagination_total_pages := Some 12000 |} |}
              eq_refl eq_refl eq_refl)
    as (r & Hr & _ & _ & Ht & Hp).
  exists r. split; [exact Hr|]. split; [|split; [exact Ht|exact Hp]].
  injection Hr as <-. reflexivity.
Defined.

Lemma fetchArtworksPage_outcomes_witness :
  (Api.fetchArtworksPage (fun _ => inr server_error) (Some 1) (Some 10)
   = inl (Error "Failed to fetch artworks")
   <-> Api.ok server_error = false) /\
  Api.fetchArtworksPage (fun _ => inr sample_response) (Some 2) (Some 10)
  = inr {| Api.items := [sample_artwork]; Api.total := 120000;
           Api.per_page := 10 |} /\
  Api.fetchArtworksPage (fun _ => inr not_json_response) (Some 1) (Some 10)
  = inl SyntaxError /\
  Api.fetchArtworksPage (fun _ => inr null_record_response) (Some 1) (Some 10)
  = inl TypeError.
Proof.
  split; [|split; [|split]].
  - exact (proj1 (fetchArtworksPage_outcomes (fun _ => inr server_error)
                    (Some 1) (Some 10) server_error eq_refl)).
  - exact (proj1 (proj2 (fetchArtworksPage_outcomes
                           (fun _ => inr sample_response)
                           (Some 2) (Some 10) sample_response eq_refl))
             eq_refl _ eq_refl).
  - exact (proj1 (proj2 (proj2 (fetchArtworksPage_outcomes
                                  (fun _ => inr not_json_response)
                                  (Some 1) (Some 10) not_json_response
                                  eq_refl)))
             eq_refl eq_refl).
  - refine (proj2 (proj2 (proj2 (fetchArtworksPage_outcomes
                                   (fun _ => inr null_record_response)
                                   (Some 1) (Some 10) null_record_response
                                   eq_refl)))
              eq_refl _ eq_refl _).
    right. right. exists [None], None. split; [reflexivity|]. left. reflexivity.
Defined.

(** Page 2 is displayed and page 3 requested; the request for page 3,
    the one of the latest run, is answered with a server error. *)
Lemma failed_fetch_logs_and_resets_witness :
  (mounted <$> effects page_three_requested !! 2%nat) = Some true /\
  items page_three_requested = [sample_artwork] /\
  console (settle 2 (inr server_error) page_three_requested)
    = [Error "Failed to fetch artworks"] /\
  items (settle 2 (inr server_error) page_three_requested) = [] /\
  totalRecords (settle 2 (inr server_error) page_three_requested) = 0 /\
  loading (settle 2 (inr server_error) page_three_requested) = false /\
  selectedMap (settle 2 (inr server_error) page_three_requested)
    = selectedMap page_three_requested /\
  length (effects (settle 2 (inr server_error) page_three_requested))
    = 3%nat.
Proof.
  destruct (failed_fetch_logs_and_resets 2 (inr server_error)
              page_three_requested
              {| eff_page := 3; eff_rowsPerPage := 10; eff_selectedMap := ∅;
                 mounted := true; settled := false |}
              (Error "Failed to fetch artworks")
              eq_refl eq_refl eq_refl eq_refl)
    as (Hc & Hi & Ht & _ & Hl & _ & _ & Hm & _ & _ & Hn).
  split; [reflexivity|]. split; [reflexivity|].
  split; [exact Hc|]. split; [exact Hi|]. split; [exact Ht|].
  split; [exact Hl|]. split; [exact Hm|exact Hn].
Defined.

(* ===================================================================== *)
(** * Part III: more of the component                                     *)
(* ===================================================================== *)

(** ** What the selection handlers do to the map *)

Section SelectionHandlers.

Implicit Types (items : list Artwork) (m prev next : SelectionMap).
Implicit Types (a row : Artwork) (k i : Z) (st : AppState).

Lemma elem_of_page_ids items k : k ∈ page_ids items <-> In k (List.map id items).
Proof. unfold page_ids. rewrite elem_of_list_to_set. apply list_elem_of_In. Qed.

Lemma select_all_lookup_page items next k :
  In k (List.map id items) ->
  exists row, In row items /\ id row = k
              /\ onSelectAllPage_map items next !! k = Some row.
Proof.
  unfold onSelectAllPage_map. revert next.
  induction items as [|r items IH]; intros next Hk; simpl in *; [done|].
  destruct (in_dec Z.eq_dec k (List.map id items)) as [Hin|Hnin].
  - destruct (IH (<[id r := r]> next) Hin) as (row & ? & ? & ?).
    exists row. auto.
  - destruct Hk as [Hk|Hk]; [|done]. exists r.
    split; [by left|]. split; [done|].
    fold (onSelectAllPage_map items (<[id r := r]> next)).
    rewrite select_all_lookup by done. subst k. apply lookup_insert_eq.
Qed.

Lemma deselect_all_lookup_page items next k :
  In k (List.map id items) -> onDeselectAllPage_map items next !! k = None.
Proof.
  unfold onDeselectAllPage_map. revert next.
  induction items as [|r items IH]; intros next Hk; simpl in *; [done|].
  destruct (in_dec Z.eq_dec k (List.map id items)) as [Hin|Hnin]; [by apply IH|].
  destruct Hk as [Hk|Hk]; [|done].
  fold (onDeselectAllPage_map items (delete (id r) next)).
  rewrite deselect_all_lookup by done. subst k. apply lookup_delete_eq.
Qed.

Lemma filter_all {A} (f : A -> bool) (l : list A) :
  (forall x, In x l -> f x = true) -> List.filter f l = l.
Proof.
  induction l as [|x l IH]; intros H; simpl; [done|].
  rewrite (H x) by by left. rewrite IH; [done|]. intros y Hy. apply H. by right.
Qed.

Lemma filter_none {A} (f : A -> bool) (l : list A) :
  (forall x, In x l -> f x = false) -> List.filter f l = [].
Proof.
  induction l as [|x l IH]; intros H; simpl; [done|].
  rewrite (H x) by by left. apply IH. intros y Hy. apply H. by right.
Qed.

(** X1. After [Select all on page] every row of the page is checked, the
    keys of the selection map are the former keys and the identifiers of
    the page, and each identifier of the page maps to a row of the page
    with that identifier, whatever record was stored under it before. *)
Theorem select_all_checks_page st :
  dtSelection (items st) (selectedMap (onSelectAllPage st)) = items st /\
  dom (selectedMap (onSelectAllPage st))
    = dom (selectedMap st) ∪ page_ids (items st) /\
  (forall k, In k (List.map id (items st)) ->
     exists row, In row (items st) /\ id row = k
                 /\ selectedMap (onSelectAllPage st) !! k = Some row).
Proof.
  simpl. split; [|split].
  - apply filter_all. intros x Hx. apply defined_is_Some.
    destruct (select_all_lookup_page (items st) (selectedMap st) (id x))
      as (row & _ & _ & ->); [by apply in_map|by eexists].
  - apply set_eq. intros k. rewrite elem_of_union, !elem_of_dom, elem_of_page_ids.
    destruct (in_dec Z.eq_dec k (List.map id (items st))) as [Hin|Hnin].
    + destruct (select_all_lookup_page (items st) (selectedMap st) k Hin)
        as (row & _ & _ & ->). split; [by right|by eexists].
    + rewrite select_all_lookup by done. tauto.
  - intros k Hk. by apply select_all_lookup_page.
Qed.

(** X2. After [Deselect all on page] no row of the page is checked, and
    the keys of the selection map are the former keys without the
    identifiers of the page. *)
Theorem deselect_all_unchecks_page st :
  dtSelection (items st) (selectedMap (onDeselectAllPage st)) = [] /\
  dom (selectedMap (onDeselectAllPage st))
    = dom (selectedMap st) ∖ page_ids (items st).
Proof.
  simpl. split.
  - apply filter_none. intros x Hx. unfold defined.
    by rewrite deselect_all_lookup_page by by apply in_map.
  - apply set_eq. intros k.
    rewrite elem_of_difference, !elem_of_dom, elem_of_page_ids.
    destruct (in_dec Z.eq_dec k (List.map id (items st))) as [Hin|Hnin].
    + rewrite deselect_all_lookup_page by done. split; [by intros []|tauto].
    + rewrite deselect_all_lookup by done. tauto.
Qed.

(** The result of [onSelectionChange] under an identifier of the page. *)
Lemma onSelectionChange_map_lookup_page items value prev k :
  In k (List.map id items) ->
  onSelectionChange_map items value prev !! k
  = step_at items (list_to_set (List.map id (default [] value))) prev k
      (prev !! k).
Proof.
  intros Hk. unfold onSelectionChange_map. rewrite selection_loop_lookup.
  destruct (decide _) as [|Hn]; [done|]. by rewrite list_elem_of_In in Hn.
Qed.

(** X3. After [onSelectionChange] the checked rows of the page are the
    rows whose identifier occurs in the event's selection. *)
Theorem onSelectionChange_checks_selected value st :
  dtSelection (items st) (selectedMap (onSelectionChange value st))
  = List.filter
      (fun it => bool_decide (id it ∈ List.map id (default [] value)))
      (items st).
Proof.
  simpl. unfold dtSelection. apply filter_ext_in. intros x Hx.
  assert (Hpage : In (id x) (List.map id (items st))) by by apply in_map.
  destruct (onSelectionChange_map_page_ids (items st) value (selectedMap st)
              (id x) Hpage) as [Hdom _].
  rewrite <- defined_dom, <- list_elem_of_In in Hdom.
  destruct (defined _ (id x)); case_bool_decide as Hd; try done.
  - destruct Hd. by apply Hdom.
  - by apply Hdom in Hd.
Qed.

(** X4. [onSelectionChange] never replaces a stored record: an
    identifier that was a key before and is one after maps to the record
    it mapped to before. *)
Theorem onSelectionChange_keeps_records value st k a b :
  selectedMap st !! k = Some a ->
  selectedMap (onSelectionChange value st) !! k = Some b ->
  b = a.
Proof.
  simpl. intros Ha Hb.
  destruct (in_dec Z.eq_dec k (List.map id (items st))) as [Hin|Hnin].
  - rewrite onSelectionChange_map_lookup_page in Hb by done.
    unfold step_at, defined in Hb. rewrite Ha in Hb.
    rewrite andb_false_r, andb_true_r in Hb.
    destruct (negb _); congruence.
  - unfold onSelectionChange_map in Hb. rewrite selection_loop_lookup in Hb.
    destruct (decide _) as [Hin|_]; [by rewrite list_elem_of_In in Hin|].
    congruence.
Qed.

(** X5. An [onSelectionChange] event that reports the rows that are
    checked already leaves the selection map as it is. *)
Theorem onSelectionChange_same_selection st :
  selectedMap
    (onSelectionChange (Some (dtSelection (items st) (selectedMap st))) st)
  = selectedMap st.
Proof.
  simpl. set (m := selectedMap st). set (its := items st).
  apply map_eq. intros k.
  destruct (in_dec Z.eq_dec k (List.map id its)) as [Hin|Hnin].
  - rewrite onSelectionChange_map_lookup_page by done. unfold step_at. simpl.
    assert (Hfound : bool_decide
              (k ∈ (list_to_set (List.map id (dtSelection its m)) : gset Z))
            = defined m k).
    { destruct (defined m k) eqn:Hd.
      - apply bool_decide_eq_true. rewrite elem_of_newIds.
        apply in_map_iff in Hin as (x & <- & Hx). apply in_map.
        apply filter_In. auto.
      - apply bool_decide_eq_false. rewrite elem_of_newIds.
        intros (x & <- & Hx)%in_map_iff. apply filter_In in Hx as [_ Hx].
        congruence. }
    rewrite Hfound. by destruct (defined m k).
  - unfold onSelectionChange_map. rewrite selection_loop_lookup.
    destruct (decide _) as [Hin|_]; [by rewrite list_elem_of_In in Hin|done].
Qed.

(** X6. Ticking a row and unticking it again removes it from the
    selection; if it was not selected before, the selection map is the
    one before the two clicks. *)
Theorem toggleRow_on_off row st :
  selectedMap (toggleRow row false (toggleRow row true st))
    = delete (id row) (selectedMap st) /\
  selectedMap (toggleRow row true st) !! id row = Some row /\
  (selectedMap st !! id row = None ->
   selectedMap (toggleRow row false (toggleRow row true st))
     = selectedMap st).
Proof.
  simpl. unfold toggleRow_map. split; [apply delete_insert_eq|].
  split; [apply lookup_insert_eq|].
  intros Hn. rewrite delete_insert_eq. by apply delete_id.
Qed.

(** X7. Removing a selected artwork from the panel takes its key, and
    only its key, out of the selection map, and the count of selected
    artworks goes down by one; removing an artwork that is not selected
    changes nothing. *)
Theorem removeFromSelection_removes_one i st :
  selectedMap (removeFromSelection i st) !! i = None /\
  (forall k, k <> i ->
     selectedMap (removeFromSelection i st) !! k = selectedMap st !! k) /\
  (i ∈ dom (selectedMap st) ->
     S (size (selectedMap (removeFromSelection i st)))
     = size (selectedMap st)) /\
  (i ∉ dom (selectedMap st) ->
     selectedMap (removeFromSelection i st) = selectedMap st).
Proof.
  simpl. unfold removeFromSelection_map. split; [apply lookup_delete_eq|].
  split; [intros k Hk; by apply lookup_delete_ne|]. split.
  - intros [a Ha]%elem_of_dom.
    rewrite <- (insert_delete_id (selectedMap st) i a Ha) at 2.
    rewrite map_size_insert_None by apply lookup_delete_eq. done.
  - intros Hn. apply delete_id. by apply not_elem_of_dom.
Qed.

End SelectionHandlers.

(** ** The side panel of a map keyed by identifier *)

Section PanelEntries.

Implicit Types (st : AppState) (m : SelectionMap) (it : SelectedItem).

Lemma keyed_values_ids m :
  keyed_by_id m -> List.map id (Object_values m) = Object_keys m.
Proof.
  intros Hk. generalize (Object_keys_values m).
  generalize (Object_keys m) (Object_values m).
  induction 1 as [|k a ks vs Hka _ IH]; simpl; [done|].
  by rewrite (Hk k a Hka), IH.
Qed.

Lemma sidebar_item_keys st :
  List.map item_key (sidebar_items (render st))
  = List.map id (Object_values (selectedMap st)).
Proof. simpl. rewrite List.map_map. done. Qed.

(** X8. When every record is stored under its own identifier, the keys
    React is given for the entries of the side panel are the keys of the
    selection map, each once. *)
Theorem panel_keys_are_map_keys st :
  keyed_by_id (selectedMap st) ->
  List.map item_key (sidebar_items (render st)) = Object_keys (selectedMap st)
  /\ NoDup (List.map item_key (sidebar_items (render st))).
Proof.
  intros Hk. rewrite sidebar_item_keys, keyed_values_ids by done.
  split; [done|]. apply Object_keys_NoDup.
Qed.

(** X9. When every record is stored under its own identifier, the remove
    button of an entry of the side panel removes that entry: its
    identifier is a key of the map before the click and none after, and
    the panel has one entry less. *)
Theorem panel_remove_button st it :
  keyed_by_id (selectedMap st) ->
  In it (sidebar_items (render st)) ->
  remove_id it ∈ dom (selectedMap st) /\
  ~ In (item_key it)
      (List.map item_key
         (sidebar_items (render (removeFromSelection (remove_id it) st)))) /\
  S (length (sidebar_items (render (removeFromSelection (remove_id it) st))))
  = length (sidebar_items (render st)).
Proof.
  intros Hk Hin.
  assert (Hit : item_key it = remove_id it /\ remove_id it ∈ dom (selectedMap st)).
  { simpl in Hin. apply in_map_iff in Hin as (a & <- & Ha).
    apply Object_values_lookup in Ha as [k Hka]. simpl.
    rewrite (Hk k a Hka). split; [done|]. apply elem_of_dom. by eexists. }
  destruct Hit as [Hkey Hdom]. split; [done|].
  assert (Hk' : keyed_by_id (selectedMap (removeFromSelection (remove_id it) st))).
  { simpl. by apply keyed_delete. }
  split.
  - rewrite sidebar_item_keys, keyed_values_ids, Object_keys_dom by done.
    simpl. unfold removeFromSelection_map. rewrite Hkey, dom_delete_L.
    intros [_ Hn]%elem_of_difference. apply Hn. by apply elem_of_singleton.
  - rewrite <- !(length_map item_key), !sidebar_item_keys, !length_map.
    rewrite !Object_values_length. simpl. unfold removeFromSelection_map.
    apply elem_of_dom in Hdom as [a Ha].
    rewrite <- (insert_delete_id (selectedMap st) _ a Ha) at 2.
    by rewrite map_size_insert_None by apply lookup_delete_eq.
Qed.

End PanelEntries.

(** ** More on the persisted selection *)

Section Storage.

Implicit Types (st : AppState) (m : SelectionMap).

(** X10. The persist effect writes the storage under the storage key
    only, changes nothing else of the state of the component, of the
    console or of the runs of the fetch effect, and running it twice is
    running it once. *)
Theorem persist_effect_writes_one_key st :
  (forall key, key <> STORAGE_KEY ->
     localStorage (persist_effect st) !! key = localStorage st !! key) /\
  page (persist_effect st) = page st /\
  rowsPerPage (persist_effect st) = rowsPerPage st /\
  loading (persist_effect st) = loading st /\
  items (persist_effect st) = items st /\
  totalRecords (persist_effect st) = totalRecords st /\
  selectedMap (persist_effect st) = selectedMap st /\
  visibleSidebar (persist_effect st) = visibleSidebar st /\
  pageSelection (persist_effect st) = pageSelection st /\
  console (persist_effect st) = console st /\
  effects (persist_effect st) = effects st /\
  persist_effect (persist_effect st) = persist_effect st.
Proof.
  split; [|repeat split].
  - intros key Hkey. unfold persist_effect, setItem. simpl.
    by apply lookup_insert_ne.
  - unfold persist_effect, setItem. simpl. f_equal. apply insert_insert_eq.
Qed.

Lemma stringify_selection_inj m1 m2 :
  JSON_stringify (js_of_SelectionMap m1) = JSON_stringify (js_of_SelectionMap m2)
  -> m1 = m2.
Proof.
  intros H.
  pose proof (JSON_parse_stringify (js_of_SelectionMap m1)) as H1.
  rewrite H, JSON_parse_stringify in H1.
  assert (Hj : js_of_SelectionMap m2 = js_of_SelectionMap m1) by congruence.
  pose proof (as_SelectionMap_js m1) as H2.
  rewrite <- Hj, as_SelectionMap_js in H2. congruence.
Qed.

(** X11. The stored text determines the selection: two different
    selection maps are persisted as two different texts. *)
Theorem different_selections_different_texts st1 st2 :
  selectedMap st1 <> selectedMap st2 ->
  localStorage (persist_effect st1) !! STORAGE_KEY
  <> localStorage (persist_effect st2) !! STORAGE_KEY.
Proof.
  intros Hne. rewrite !persist_effect_stored. intros H. apply Hne.
  apply stringify_selection_inj. congruence.
Qed.

(** X12. The load effect changes nothing when there is no stored text,
    when the stored text is empty, and when [JSON.parse] rejects it; and
    whatever it loads, it leaves all of the state but the selection map as
    it is, the storage included. *)
Theorem load_effect_edges st :
  (localStorage st !! STORAGE_KEY = None -> load_effect st = Some st) /\
  (localStorage st !! STORAGE_KEY = Some "" -> load_effect st = Some st) /\
  (forall raw, localStorage st !! STORAGE_KEY = Some raw ->
     JSON_parse raw = None -> load_effect st = Some st) /\
  (forall st', load_effect st = Some st' ->
     st' = setSelectedMap (fun _ => selectedMap st') st).
Proof.
  unfold load_effect. repeat split.
  - by intros ->.
  - by intros ->.
  - intros raw -> ->. by destruct (String.eqb raw "").
  - intros st'. destruct st. simpl.
    destruct (_ !! STORAGE_KEY) as [raw|]; [|by intros [= <-]].
    destruct (String.eqb raw ""); [by intros [= <-]|].
    destruct (JSON_parse raw) as [v|]; [|by intros [= <-]].
    destruct (as_SelectionMap v); [|done]. by intros [= <-].
Qed.

(** X13. On a mount that runs each effect once, as in a production
    build, a reload restores the persisted selection, and the storage,
    over which the persist effect of the first render writes the empty
    selection, holds the persisted text again after the second render. *)
Theorem single_mount_restores_selection st :
  exists st',
    mount false (localStorage (persist_effect st)) = Some st'
    /\ selectedMap st' = selectedMap st
    /\ localStorage st' = localStorage (persist_effect st).
Proof. eapply mount_once_stored. apply persist_effect_stored. Qed.

End Storage.

(** ** Invariants of the runs of the component *)

Section Runs.

Implicit Types (st : AppState) (e : FetchEffect) (n : nat) (a : action).
Implicit Types (net : exn + Api.Response) (l : list action).

Lemma perform_all_ind (P : AppState -> Prop) :
  (forall a st, P st -> P (perform a st)) ->
  forall l st, P st -> P (perform_all l st).
Proof.
  intros Hstep l. unfold perform_all.
  induction l as [|a l IH]; intros st Hst; simpl; auto.
Qed.

(** What settling a run changes: nothing if the run does not exist or
    has settled before; otherwise the run is marked settled, the loading
    flag follows the [mounted] flag, and the selection map stays. *)
Lemma settle_cases n net st :
  settle n net st = st \/
  exists e, effects st !! n = Some e /\ settled e = false /\
    effects (settle n net st) = alter settle_run n (effects st) /\
    loading (settle n net st) = (if mounted e then false else loading st) /\
    selectedMap (settle n net st) = selectedMap st.
Proof.
  unfold settle. destruct (effects st !! n) as [e|] eqn:He; [|by left].
  destruct (settled e) eqn:Hs; [by left|]. right. exists e.
  split; [done|]. split; [done|].
  unfold finally_handler, then_handler, catch_handler.
  destruct (Api.fetchArtworksPage _ _ _); destruct (mounted e); done.
Qed.

Lemma latest_run_rerun st :
  latest_run (rerun_fetch_effect st)
  = Some {| eff_page := page st; eff_rowsPerPage := rowsPerPage st;
            eff_selectedMap := selectedMap st;
            mounted := true; settled := false |}.
Proof.
  unfold latest_run, rerun_fetch_effect, fetch_effect, cleanup. simpl.
  rewrite length_app. simpl. rewrite Nat.add_1_r. simpl.
  rewrite lookup_app_r by done. by rewrite Nat.sub_diag.
Qed.

Lemma runs_in_order_initial storage : runs_in_order (initial_state storage).
Proof.
  repeat split; try done.
  intros (e & He & _). discriminate He.
Qed.

Lemma runs_in_order_frame st st' :
  effects st' = effects st -> loading st' = loading st ->
  runs_in_order st -> runs_in_order st'.
Proof.
  unfold runs_in_order, latest_run. by intros -> ->.
Qed.

Lemma runs_in_order_rerun st :
  runs_in_order st -> runs_in_order (rerun_fetch_effect st).
Proof.
  intros (H1 & H2 & H3). split; [|split].
  - intros n e. by apply rerun_unmounts_previous.
  - intros e. rewrite latest_run_rerun. by intros [= <-].
  - rewrite latest_run_rerun. split; [by eexists|done].
Qed.

Lemma runs_in_order_settle n net st :
  runs_in_order st -> runs_in_order (settle n net st).
Proof.
  intros Hin.
  destruct (settle_cases n net st) as [->|(e & He & Hs & Heff & Hl & _)];
    [done|].
  destruct Hin as (H1 & H2 & H3).
  assert (Hn : (n < length (effects st))%nat) by by eapply lookup_lt_Some.
  unfold runs_in_order, latest_run in *. rewrite Heff, Hl, length_alter.
  split; [|split].
  - intros k e' Hk Hlt. rewrite list_lookup_alter in Hk.
    destruct (decide (n = k)) as [<-|_]; [|by eapply H1].
    rewrite He in Hk. injection Hk as <-. simpl. by eapply H1.
  - intros e' Hk. rewrite list_lookup_alter in Hk.
    destruct (decide _) as [Heq|_]; [|by apply H2].
    rewrite He in Hk. injection Hk as <-. simpl. apply H2. by rewrite <- Heq.
  - rewrite list_lookup_alter.
    destruct (decide (n = pred (length (effects st)))) as [->|Hne].
    + rewrite He. simpl. rewrite (H2 e He). split; [done|].
      by intros (e' & [= <-] & Hs').
    + rewrite (H1 n e He) by lia. done.
Qed.

Lemma runs_in_order_perform a st :
  runs_in_order st -> runs_in_order (perform a st).
Proof.
  destruct a; simpl;
    try (by apply runs_in_order_frame);
    [apply runs_in_order_rerun|apply runs_in_order_settle].
Qed.

Lemma load_effect_runs st st' :
  load_effect st = Some st' ->
  effects st' = effects st /\ loading st' = loading st.
Proof.
  unfold load_effect.
  destruct (_ !! STORAGE_KEY) as [raw|]; [|by intros [= <-]].
  destruct (String.eqb raw ""); [by intros [= <-]|].
  destruct (JSON_parse raw) as [v|]; [|by intros [= <-]].
  destruct (as_SelectionMap v); [|done]. by intros [= <-].
Qed.

(** X14. However the user's actions, the runs of the effects and the
    answers of the server follow each other after the component was
    mounted and the stored selection loaded: every run of the fetch effect
    but the latest is unmounted, the latest is mounted, and the loading
    flag is set exactly while the latest run has not settled. *)
Theorem runs_stay_in_order l storage st0 :
  load_effect (initial_state storage) = Some st0 ->
  runs_in_order (perform_all l st0).
Proof.
  intros [He Hl]%load_effect_runs.
  apply perform_all_ind; [intros a st; apply runs_in_order_perform|].
  eapply runs_in_order_frame; [exact He|exact Hl|].
  apply runs_in_order_initial.
Qed.

(** X15. In every run of the component, a page that arrives for a run
    of the fetch effect that is not the latest changes neither the
    displayed items, nor the total, nor the page selection, nor the
    loading flag. *)
Theorem stale_page_never_displayed l storage st0 n e net r :
  load_effect (initial_state storage) = Some st0 ->
  effects (perform_all l st0) !! n = Some e ->
  (S n < length (effects (perform_all l st0)))%nat ->
  outcome e net = inr r ->
  items (settle n net (perform_all l st0)) = items (perform_all l st0) /\
  totalRecords (settle n net (perform_all l st0))
    = totalRecords (perform_all l st0) /\
  pageSelection (settle n net (perform_all l st0))
    = pageSelection (perform_all l st0) /\
  loading (settle n net (perform_all l st0)) = loading (perform_all l st0).
Proof.
  intros Hload He Hn Ho.
  destruct (runs_stay_in_order l storage st0 Hload) as (H1 & _).
  eapply stale_page_is_discarded; [done| |done]. by eapply H1.
Qed.

Lemma keyed_perform a st :
  keyed_by_id (selectedMap st) -> keyed_by_id (selectedMap (perform a st)).
Proof.
  intros Hk. destruct a; simpl; try done.
  - apply keyed_fold; [|done]. intros. by apply keyed_selection_step.
  - apply keyed_fold; [|done]. intros. by apply keyed_insert.
  - apply keyed_fold; [|done]. intros. by apply keyed_delete.
  - by apply keyed_delete.
  - unfold toggleRow_map. destruct checked;
      [by apply keyed_insert|by apply keyed_delete].
  - by destruct (settle_cases n net st) as [->|(e & _ & _ & _ & _ & ->)].
Qed.

(** X16. If every record of the selection a component starts with is
    stored under its own identifier, this stays so in every run. *)
Theorem selection_stays_keyed l st0 :
  keyed_by_id (selectedMap st0) ->
  keyed_by_id (selectedMap (perform_all l st0)).
Proof.
  apply (perform_all_ind (fun st => keyed_by_id (selectedMap st))).
  apply keyed_perform.
Qed.

End Runs.

(** ** Pagination *)

Section Pagination.

Implicit Types (st : AppState) (p v : Z).

(** X17. When the paginator reports the zero-based page [p], the
    component is on page [p + 1], the paginator is shown at record
    [p] times the rows per page, and the run of the fetch effect that
    follows asks for page [p + 1] with the current rows per page. *)
Theorem page_change_requests_page st p :
  page (onPageChange (Some p) st) = p + 1 /\
  paginator_first (render (onPageChange (Some p) st)) = p * rowsPerPage st /\
  exists e,
    latest_run (rerun_fetch_effect (onPageChange (Some p) st)) = Some e
    /\ eff_page e = p + 1 /\ eff_rowsPerPage e = rowsPerPage st
    /\ mounted e = true /\ settled e = false.
Proof.
  split; [done|]. split; [simpl; f_equal; lia|].
  rewrite latest_run_rerun. by eexists.
Qed.

(** X18. Changing the rows per page goes back to the first page: the
    paginator is shown at record 0 with the new number of rows, which is
    10 if the input was cleared, and the run of the fetch effect that
    follows asks for page 1 with that number of rows. *)
Theorem rows_change_goes_to_first_page st (value : option Z) :
  page (onRowsPerPageChange value st) = 1 /\
  rowsPerPage (onRowsPerPageChange value st) = default 10 value /\
  paginator_first (render (onRowsPerPageChange value st)) = 0 /\
  paginator_rows (render (onRowsPerPageChange value st)) = default 10 value /\
  selectedMap (onRowsPerPageChange value st) = selectedMap st /\
  exists e,
    latest_run (rerun_fetch_effect (onRowsPerPageChange value st)) = Some e
    /\ eff_page e = 1 /\ eff_rowsPerPage e = default 10 value.
Proof.
  repeat split. rewrite latest_run_rerun. by eexists.
Qed.

End Pagination.

(** ** The address of a page *)

Section Address.

Implicit Types (s t rest : string) (z : Z).

Lemma read_nat_behind (n : N) rest :
  no_digit_ahead rest -> continues_number rest = false ->
  read_nat (string_of_N n +:+ rest) = Some (n, rest).
Proof.
  intros Hd Hc. unfold read_nat, string_of_N.
  rewrite read_uint_written by done.
  by rewrite to_uint_normal, Hc, Unsigned.of_to.
Qed.

Lemma read_number_behind z rest :
  no_digit_ahead rest -> continues_number rest = false ->
  read_number (string_of_Z z +:+ rest) = Some (z, rest).
Proof.
  intros Hd Hc. destruct z as [|p|p]; simpl.
  - change (string_of_N 0) with "0". rewrite append_cons, append_nil.
    unfold read_number. change ("0" =? "-")%char with false. cbv iota.
    change (String "0" rest) with (string_of_N 0 +:+ rest).
    by rewrite read_nat_behind.
  - destruct (string_of_N_head (N.pos p)) as (c & s & Hs & _ & Hm).
    pose proof (read_nat_behind (N.pos p) rest Hd Hc) as Hn.
    rewrite Hs in *. rewrite append_cons in *. unfold read_number.
    by rewrite Hm, Hn.
  - by rewrite read_nat_behind.
Qed.

Lemma url_inj (page limit page' limit' : Z) :
  Api.url page limit = Api.url page' limit' ->
  page = page' /\ limit = limit'.
Proof.
  unfold Api.url. intros H. apply String.app_inj in H.
  assert (Hp : Some (page, ("&limit=" +:+ string_of_Z limit +:+
       "&fields=id,title,place_of_origin,artist_display,inscriptions,date_start,date_end"))
     = Some (page', ("&limit=" +:+ string_of_Z limit' +:+
       "&fields=id,title,place_of_origin,artist_display,inscriptions,date_start,date_end"))).
  { rewrite <- !read_number_behind by done. by rewrite H. }
  injection Hp as -> Hl. split; [done|].
  apply String.app_inj in Hl.
  assert (Hq : Some (limit,
       "&fields=id,title,place_of_origin,artist_display,inscriptions,date_start,date_end")
     = Some (limit',
       "&fields=id,title,place_of_origin,artist_display,inscriptions,date_start,date_end")).
  { rewrite <- !read_number_behind by done. by rewrite Hl. }
  by injection Hq.
Qed.

(** X19. The address [fetchArtworksPage] requests determines the page and
    the limit: requests for different pages or with different limits go to
    different addresses. *)
Theorem different_pages_different_urls (page limit page' limit' : Z) :
  (page, limit) <> (page', limit') ->
  Api.url page limit <> Api.url page' limit'.
Proof.
  intros Hne H. apply url_inj in H as [-> ->]. by apply Hne.
Qed.

End Address.

(** ** The dates column *)

Section Dates.

Implicit Types (row : Artwork) (v w : json).

Lemma coalesce_not_null v s : coalesce v (JStr s) <> JNull.
Proof. by destruct v. Qed.

Lemma js_or_truthy v w : truthy w = true -> truthy (js_or v w) = true.
Proof. unfold js_or. by destruct (truthy v) eqn:E. Qed.

Lemma append_not_empty s t :
  String.eqb (s +:+ dash +:+ t) "" = false.
Proof. by destruct s. Qed.

(** X20. The dates column is never blank: whatever the two dates of a
    row are, [renderDates] returns a truthy value, so neither [null], nor
    the empty string, nor [0], nor [false]. *)
Theorem renderDates_never_blank row : truthy (renderDates row) = true.
Proof.
  unfold renderDates.
  destruct (strict_eq _ _ || negb (truthy _) || negb (truthy _)).
  - by apply js_or_truthy.
  - simpl. by rewrite append_not_empty.
Qed.

(** X21. What [renderDates] shows of the two dates: if one of them is
    missing ([null]), empty or zero, the other one alone, and a dash if
    that one is missing, empty or zero too; if both are the same number or
    the same text, that value once. *)
Theorem renderDates_one_date row :
  (truthy (date_start row) = false -> truthy (date_end row) = true ->
   renderDates row = date_end row) /\
  (truthy (date_start row) = true -> truthy (date_end row) = false ->
   renderDates row = date_start row) /\
  (truthy (date_start row) = false -> truthy (date_end row) = false ->
   renderDates row = JStr "-") /\
  (truthy (date_start row) = true ->
   strict_eq (date_start row) (date_end row) = true ->
   renderDates row = date_start row).
Proof.
  unfold renderDates, js_or.
  destruct (date_start row) as [|[]|[|p|p]|[|c s]|vs|ms];
    destruct (date_end row) as [|[]|[|p'|p']|[|c' s']|vs'|ms'];
    repeat split; try discriminate; simpl; intros _ H; try discriminate;
    by rewrite ?H.
Qed.

End Dates.

(** ** The page of the latest request, and the keys after an event *)

Section Latest.

Implicit Types (st : AppState) (e : FetchEffect) (l : list action).

(** X22. In every run of the component, when the page of the latest run
    of the fetch effect arrives, it is displayed: its items and its total
    are shown, the loading flag is cleared, and the page selection is made
    of the rows whose identifier was a key of the selection map when the
    run started. *)
Theorem latest_page_is_displayed l storage st0 e net r :
  load_effect (initial_state storage) = Some st0 ->
  latest_run (perform_all l st0) = Some e -> settled e = false ->
  outcome e net = inr r ->
  items (settle (pred (length (effects (perform_all l st0)))) net
           (perform_all l st0)) = Api.items r /\
  totalRecords (settle (pred (length (effects (perform_all l st0)))) net
                  (perform_all l st0)) = Api.total r /\
  pageSelection (settle (pred (length (effects (perform_all l st0)))) net
                   (perform_all l st0))
    = fetched_pageSelection (Api.items r) (eff_selectedMap e) /\
  loading (settle (pred (length (effects (perform_all l st0)))) net
             (perform_all l st0)) = false.
Proof.
  intros Hload He Hs Ho.
  destruct (runs_stay_in_order l storage st0 Hload) as (_ & H2 & _).
  eapply fetched_page_is_displayed; [exact He|done|by apply H2|done].
Qed.

(** X23. The keys of the selection map after [onSelectionChange]: the
    former keys that are no identifiers of the page, and the identifiers
    of the page that occur in the event's selection. *)
Theorem onSelectionChange_keys (value : option (list Artwork)) st :
  dom (selectedMap (onSelectionChange value st))
  = (dom (selectedMap st) ∖ page_ids (items st))
    ∪ (page_ids (items st) ∩ page_ids (default [] value)).
Proof.
  simpl. apply set_eq. intros k.
  rewrite elem_of_union, elem_of_difference, elem_of_intersection,
    !elem_of_page_ids.
  destruct (in_dec Z.eq_dec k (List.map id (items st))) as [Hin|Hnin].
  - destruct (onSelectionChange_map_page_ids (items st) value (selectedMap st)
                k Hin) as [-> _]. tauto.
  - rewrite !elem_of_dom. unfold onSelectionChange_map.
    rewrite selection_loop_lookup.
    destruct (decide _) as [Hin|_]; [by rewrite list_elem_of_In in Hin|].
    tauto.
Qed.

End Latest.

(** ** Two more compositions *)

Section More.

Implicit Types (st : AppState) (a : Artwork).

(** X24. The two lines of an entry of the side panel are never [null]:
    the first is the title, or [(untitled)] for a missing title; the
    second is the artist, or for a missing artist the place of origin, or
    for both missing the empty text. *)
Theorem panel_entry_lines a :
  selected_title (selected_item a) <> JNull /\
  selected_sub (selected_item a) <> JNull /\
  (title a <> JNull -> selected_title (selected_item a) = title a) /\
  (title a = JNull -> selected_title (selected_item a) = JStr "(untitled)") /\
  (artist_display a <> JNull ->
     selected_sub (selected_item a) = artist_display a) /\
  (artist_display a = JNull -> place_of_origin a <> JNull ->
     selected_sub (selected_item a) = place_of_origin a) /\
  (artist_display a = JNull -> place_of_origin a = JNull ->
     selected_sub (selected_item a) = JStr "").
Proof.
  destruct a as [i t p ar n s e]. simpl.
  repeat split; try (by destruct t); by destruct ar; destruct p.
Qed.

(** X25. [Select all on page] followed by [Deselect all on page] leaves
    the selection that [Deselect all on page] alone leaves: the
    selections of the other pages, and no row of this page. *)
Theorem select_all_then_deselect_all st :
  selectedMap (onDeselectAllPage (onSelectAllPage st))
    = selectedMap (onDeselectAllPage st) /\
  forall k,
    selectedMap (onDeselectAllPage (onSelectAllPage st)) !! k
    = if bool_decide (k ∈ page_ids (items st)) then None
      else selectedMap st !! k.
Proof.
  assert (H : forall m k,
            onDeselectAllPage_map (items st) m !! k
            = if bool_decide (k ∈ page_ids (items st)) then None else m !! k).
  { intros m k. case_bool_decide as Hk; rewrite elem_of_page_ids in Hk.
    - by apply deselect_all_lookup_page.
    - by apply deselect_all_lookup. }
  simpl. split.
  - apply map_eq. intros k. rewrite !H. case_bool_decide as Hk; [done|].
    rewrite elem_of_page_ids in Hk. by apply select_all_lookup.
  - intros k. rewrite H. case_bool_decide as Hk; [done|].
    rewrite elem_of_page_ids in Hk. by apply select_all_lookup.
Qed.

End More.

(** ** The properties at work *)

(** Artwork 27992 is selected; the page now shows it under another
    title, and the event reports it as checked: the stored record
    stays. *)
Lemma onSelectionChange_keeps_records_witness :
  selectedMap (setItems [retitled_artwork]
                 (onSelectAllPage page_two_displayed)) !! 27992
    = Some sample_artwork /\
  selectedMap (onSelectionChange (Some [retitled_artwork])
                 (setItems [retitled_artwork]
                    (onSelectAllPage page_two_displayed))) !! 27992
    = Some sample_artwork /\
  sample_artwork = sample_artwork.
Proof.
  split; [reflexivity|]. split; [reflexivity|].
  exact (onSelectionChange_keeps_records (Some [retitled_artwork])
           (setItems [retitled_artwork] (onSelectAllPage page_two_displayed))
           27992 sample_artwork sample_artwork eq_refl eq_refl).
Defined.

Lemma one_selected_keyed :
  keyed_by_id (selectedMap (onSelectAllPage page_two_displayed)).
Proof.
  intros k a.
  change (selectedMap (onSelectAllPage page_two_displayed))
    with (<[27992 := sample_artwork]> (∅ : SelectionMap)).
  rewrite lookup_insert. destruct (decide (27992 = k)) as [<-|_].
  - intros [= <-]. reflexivity.
  - rewrite lookup_empty. discriminate.
Defined.

Lemma panel_keys_are_map_keys_witness :
  keyed_by_id (selectedMap (onSelectAllPage page_two_displayed)) /\
  List.map item_key (sidebar_items (render (onSelectAllPage page_two_displayed)))
    = Object_keys (selectedMap (onSelectAllPage page_two_displayed)) /\
  NoDup (List.map item_key
           (sidebar_items (render (onSelectAllPage page_two_displayed)))).
Proof.
  split; [exact one_selected_keyed|].
  exact (panel_keys_are_map_keys (onSelectAllPage page_two_displayed)
           one_selected_keyed).
Defined.

Lemma panel_remove_button_witness :
  keyed_by_id (selectedMap (onSelectAllPage page_two_displayed)) /\
  In (selected_item sample_artwork)
     (sidebar_items (render (onSelectAllPage page_two_displayed))) /\
  S (length (sidebar_items
               (render (removeFromSelection 27992
                          (onSelectAllPage page_two_displayed)))))
  = length (sidebar_items (render (onSelectAllPage page_two_displayed))).
Proof.
  split; [exact one_selected_keyed|].
  assert (Hin : In (selected_item sample_artwork)
                  (sidebar_items (render (onSelectAllPage page_two_displayed)))).
  { left. reflexivity. }
  split; [exact Hin|].
  exact (proj2 (proj2 (panel_remove_button (onSelectAllPage page_two_displayed)
                         (selected_item sample_artwork)
                         one_selected_keyed Hin))).
Defined.

Lemma different_selections_different_texts_witness :
  selectedMap page_two_displayed
    <> selectedMap (onSelectAllPage page_two_displayed) /\
  localStorage (persist_effect page_two_displayed) !! STORAGE_KEY
    <> localStorage (persist_effect (onSelectAllPage page_two_displayed))
       !! STORAGE_KEY.
Proof.
  assert (H : selectedMap page_two_displayed
              <> selectedMap (onSelectAllPage page_two_displayed)).
  { intros H. apply (f_equal (fun m => m !! 27992)) in H. discriminate H. }
  split; [exact H|].
  exact (different_selections_different_texts page_two_displayed
           (onSelectAllPage page_two_displayed) H).
Defined.

Lemma runs_stay_in_order_witness :
  load_effect (initial_state ∅) = Some (initial_state ∅) /\
  runs_in_order
    (perform_all (two_requests ++ [Settle 1 (inr sample_response)])
       (initial_state ∅)).
Proof.
  assert (H : load_effect (initial_state ∅) = Some (initial_state ∅))
    by reflexivity.
  split; [exact H|].
  exact (runs_stay_in_order (two_requests ++ [Settle 1 (inr sample_response)])
           ∅ (initial_state ∅) H).
Defined.

Lemma stale_page_never_displayed_witness :
  load_effect (initial_state ∅) = Some (initial_state ∅) /\
  items (settle 0 (inr sample_response)
           (perform_all two_requests (initial_state ∅)))
    = items (perform_all two_requests (initial_state ∅)) /\
  loading (settle 0 (inr sample_response)
             (perform_all two_requests (initial_state ∅)))
    = loading (perform_all two_requests (initial_state ∅)).
Proof.
  assert (H : load_effect (initial_state ∅) = Some (initial_state ∅))
    by reflexivity.
  split; [exact H|].
  assert (He : effects (perform_all two_requests (initial_state ∅)) !! 0%nat
               = Some {| eff_page := 1; eff_rowsPerPage := 10;
                         eff_selectedMap := ∅;
                         mounted := false; settled := false |})
    by reflexivity.
  assert (Hn : (1 < length (effects (perform_all two_requests
                                       (initial_state ∅))))%nat)
    by (simpl; lia).
  destruct (stale_page_never_displayed two_requests ∅ (initial_state ∅)
              0%nat _ (inr sample_response)
              {| Api.items := [sample_artwork]; Api.total := 120000;
                 Api.per_page := 10 |}
              H He Hn eq_refl)
    as (Hi & _ & _ & Hl).
  split; [exact Hi|exact Hl].
Defined.

Lemma latest_page_is_displayed_witness :
  load_effect (initial_state ∅) = Some (initial_state ∅) /\
  items (settle 1 (inr sample_response)
           (perform_all two_requests (initial_state ∅)))
    = [sample_artwork] /\
  loading (settle 1 (inr sample_response)
             (perform_all two_requests (initial_state ∅))) = false.
Proof.
  assert (H : load_effect (initial_state ∅) = Some (initial_state ∅))
    by reflexivity.
  split; [exact H|].
  assert (He : latest_run (perform_all two_requests (initial_state ∅))
               = Some {| eff_page := 2; eff_rowsPerPage := 10;
                         eff_selectedMap := ∅;
                         mounted := true; settled := false |})
    by reflexivity.
  destruct (latest_page_is_displayed two_requests ∅ (initial_state ∅)
              _ (inr sample_response)
              {| Api.items := [sample_artwork]; Api.total := 120000;
                 Api.per_page := 10 |}
              H He eq_refl eq_refl)
    as (Hi & _ & _ & Hl).
  split; [exact Hi|exact Hl].
Defined.

Lemma selection_stays_keyed_witness :
  keyed_by_id (selectedMap (onSelectAllPage page_two_displayed)) /\
  keyed_by_id
    (selectedMap
       (perform_all [ToggleRow retitled_artwork true; RunPersistEffect;
                     RunFetchEffect; DeselectAllPage]
          (onSelectAllPage page_two_displayed))).
Proof.
  split; [exact one_selected_keyed|].
  exact (selection_stays_keyed
           [ToggleRow retitled_artwork true; RunPersistEffect;
            RunFetchEffect; DeselectAllPage]
           (onSelectAllPage page_two_displayed) one_selected_keyed).
Defined.

Lemma different_pages_different_urls_witness :
  (1, 10) <> (2, 10) /\ Api.url 1 10 <> Api.url 2 10.
Proof.
  assert (H : (1, 10) <> (2, 10)) by discriminate.
  split; [exact H|].
  exact (different_pages_different_urls 1 10 2 10 H).
Defined.
